(** * The tile-tree update and subdivision engine of iTowns

    A shallow embedding of [GeometryLayer] and [TiledGeometryLayer]
    (attach / detach, preUpdate, update, hasEnoughTexturesToSubdivide,
    subdivideNode and the two callbacks it registers on the scheduler's
    promise), followed by the properties the specification states about
    them.

    Scene objects are JavaScript references: they live in a store indexed by
    object identity, so that [node.parent.pendingSubdivision] and the
    callbacks that run later see the mutations made in between. *)

From Stdlib Require Import ZArith.
From stdpp Require Import base option strings gmap list relations.

(** ** Completions *)

(** What a rejected command carries: the scheduler's cancellation exception,
    or anything else. *)
Inductive Rejection :=
| CancelledCommandException
| OtherFailure (msg : string).

(** [err instanceof CancelledCommandException] *)
Definition isCancelled (err : Rejection) : bool :=
  match err with
  | CancelledCommandException => true
  | OtherFailure _ => false
  end.

(** What a piece of code can throw: the engine's [TypeError] when a property
    of [null] is read, and [new Error(err)] of the rejection handler. *)
Inductive Exn :=
| TypeError
| Error (err : Rejection).

Inductive Completion (A : Type) :=
| Normal (a : A)
| Throw (e : Exn).
Arguments Normal {A} a.
Arguments Throw {A} e.

(** ** Data layers and their per-node load status *)

(** Modelled from the spec: LayerUpdateState is not under src; the spec gives
    the per-layer status record as one of not-requested, pending, ready and
    error, and [inError()] tells the last one. *)
Inductive LayerUpdateState :=
| NotRequested
| Pending
| Ready
| InError.

Definition inError (s : LayerUpdateState) : bool :=
  match s with
  | InError => true
  | _ => false
  end.

Definition NodeId := nat.
Definition LayerRef := nat.

Section Engine.

(** The geographic region of a tile and the camera are opaque to the engine. *)
Context {Extent Camera : Type}.

(** [e.source]: the zoom bound read by preUpdate and the coverage test
    [source.extentsInsideLimit(extents)]. *)
Record Source := {
  zoom_max : Z;
  extentsInsideLimit : list Extent -> bool
}.

(** A color or elevation layer as the engine reads it. *)
Record DataLayer := {
  l_id : string;
  l_type : string;
  l_frozen : bool;
  l_ready : bool;
  l_visible : bool;
  l_source : Source
}.

(** ** Tile nodes *)

(** [node.material]: the renderable representation. *)
Record Material := {
  m_visible : bool;
  isElevationLayerLoaded : bool;
  isColorLayerLoaded : DataLayer -> bool;
  m_fogDistance : option Z
}.

(** An object of the scene graph.  Tiles, and the camera and the layers that
    can appear among the sources of an update, are all read through these
    fields ([isCamera] and [layer] are undefined, here [false] and [None], on
    the objects that do not carry them). *)
Record TileMesh := {
  parent : option NodeId;
  children : list NodeId;
  layer : option LayerRef;
  extent : Extent;
  pendingSubdivision : bool;
  visible : bool;
  displayed : bool;
  material : option Material;
  layerUpdateState : gmap string LayerUpdateState;
  isCamera : bool
}.

Definition Store := NodeId -> TileMesh.

(** Writing one object of the store. *)
Definition upd (node : NodeId) (v : TileMesh) (s : Store) : Store :=
  fun x => if Nat.eqb x node then v else s x.

(** Field assignments. *)
Definition set_children (v : list NodeId) (n : TileMesh) : TileMesh :=
  {| parent := parent n; children := v; layer := layer n; extent := extent n;
     pendingSubdivision := pendingSubdivision n; visible := visible n;
     displayed := displayed n; material := material n;
     layerUpdateState := layerUpdateState n; isCamera := isCamera n |}.

Definition set_parent (v : option NodeId) (n : TileMesh) : TileMesh :=
  {| parent := v; children := children n; layer := layer n; extent := extent n;
     pendingSubdivision := pendingSubdivision n; visible := visible n;
     displayed := displayed n; material := material n;
     layerUpdateState := layerUpdateState n; isCamera := isCamera n |}.

Definition set_pendingSubdivision (v : bool) (n : TileMesh) : TileMesh :=
  {| parent := parent n; children := children n; layer := layer n;
     extent := extent n; pendingSubdivision := v; visible := visible n;
     displayed := displayed n; material := material n;
     layerUpdateState := layerUpdateState n; isCamera := isCamera n |}.

Definition set_visible (v : bool) (n : TileMesh) : TileMesh :=
  {| parent := parent n; children := children n; layer := layer n;
     extent := extent n; pendingSubdivision := pendingSubdivision n;
     visible := v; displayed := displayed n; material := material n;
     layerUpdateState := layerUpdateState n; isCamera := isCamera n |}.

Definition set_material (v : option Material) (n : TileMesh) : TileMesh :=
  {| parent := parent n; children := children n; layer := layer n;
     extent := extent n; pendingSubdivision := pendingSubdivision n;
     visible := visible n; displayed := displayed n; material := v;
     layerUpdateState := layerUpdateState n; isCamera := isCamera n |}.

Definition set_displayed (v : bool) (n : TileMesh) : TileMesh :=
  {| parent := parent n; children := children n; layer := layer n;
     extent := extent n; pendingSubdivision := pendingSubdivision n;
     visible := visible n; displayed := v; material := material n;
     layerUpdateState := layerUpdateState n; isCamera := isCamera n |}.

Definition material_show (show : bool) (m : Material) : Material :=
  {| m_visible := show; isElevationLayerLoaded := isElevationLayerLoaded m;
     isColorLayerLoaded := isColorLayerLoaded m;
     m_fogDistance := m_fogDistance m |}.

Definition material_fog (d : Z) (m : Material) : Material :=
  {| m_visible := m_visible m;
     isElevationLayerLoaded := isElevationLayerLoaded m;
     isColorLayerLoaded := isColorLayerLoaded m; m_fogDistance := Some d |}.

(** Modelled from the spec: TileMesh.setDisplayed is not under src.  The
    spec's data model gives a tile the flag [displayed], "whether the
    renderable representation is currently shown"; setDisplayed(show) assigns
    it, and the material, when there is one, is shown or hidden with it. *)
Definition setDisplayed (show : bool) (n : TileMesh) : TileMesh :=
  set_material (material_show show <$> material n) (set_displayed show n).

(** Modelled from the spec: TileMesh.setFog is not under src ("update
    uniforms"): the fog distance is stored on the material. *)
Definition setFog (d : Z) (n : TileMesh) : TileMesh :=
  set_material (material_fog d <$> material n) n.

(** [node.layerUpdateState[id] && node.layerUpdateState[id].inError()] *)
Definition layerInError (node : TileMesh) (id : string) : bool :=
  match layerUpdateState node !! id with
  | Some s => inError s
  | None => false
  end.

(** ** The update context *)

(** Modelled from the spec: View is not under src.  [getLayers(filter)]
    returns the layers of the view that pass [filter(layer, parent)], where
    [parent] is the geometry layer the layer is attached to, if any (here its
    id, the only thing the filters of preUpdate read). *)
Record View := {
  fogDistance : option Z;
  view_layers : list (DataLayer * option string)
}.

Definition getLayers (v : View)
    (filter : DataLayer -> option string -> bool) : list DataLayer :=
  (List.filter (fun la => filter la.1 la.2) (view_layers v)).*1.

(** [context.maxElevationLevel] is a number or [Infinity]. *)
Inductive Level :=
| Finite (z : Z)
| Infinity.

Record Context := {
  camera : Camera;
  view : View;
  colorLayers : list DataLayer;
  elevationLayers : list DataLayer;
  maxElevationLevel : Level
}.

(** ** GeometryLayer *)

(** A layer that can be attached to a geometry layer: its identity as an
    object, its id, and whether it has an [update] method. *)
Record Layer := {
  layer_ref : LayerRef;
  layer_id : string;
  layer_update : bool
}.

Record GeometryLayer := {
  ref : LayerRef;
  id : string;
  attachedLayers : list Layer
}.

Definition set_attachedLayers (v : list Layer) (g : GeometryLayer) :=
  {| ref := ref g; id := id g; attachedLayers := v |}.

(** [attach(layer)]: [None] when it throws, the layer having no update
    method. *)
Definition attach (this : GeometryLayer) (l : Layer) : option GeometryLayer :=
  if negb (layer_update l) then None
  else Some (set_attachedLayers (attachedLayers this ++ [l]) this).

(** [detach(layer)]: the layer after the call and the returned boolean.  Ids
    are strings (see the constructor), on which [!=] is plain inequality. *)
Definition detach (this : GeometryLayer) (l : Layer) : GeometryLayer * bool :=
  let count := length (attachedLayers this) in
  let this' :=
    set_attachedLayers
      (List.filter (fun attached => negb (String.eqb (layer_id attached) (layer_id l)))
         (attachedLayers this)) this in
  (this', Nat.ltb (length (attachedLayers this')) count).

(** ** TiledGeometryLayer *)

Record TiledGeometryLayer := {
  base : GeometryLayer;
  level0Nodes : list NodeId
}.

(** [n.layer == this] *)
Definition ofLayer (this : TiledGeometryLayer) (n : TileMesh) : bool :=
  bool_decide (layer n = Some (ref (base this))).

(** What the engine asks of its collaborators: the quartering of an extent,
    the coordinates of a tile in a source's tiling, the culling oracle and the
    subdivision criterion supplied by the layer, the two entry points of
    ObjectRemovalHelper (each gives the store after the removal and what it
    returns) and TileMesh.findCommonAncestor.  The coordinates depend on the
    tile through its extent ("does this node's extent lie within the source's
    coverage limits"). *)
Class Collaborators := {
  extent_subdivision : Extent -> list Extent;
  getCoordsForSource : Extent -> Source -> list Extent;
  culling : TiledGeometryLayer -> Store -> NodeId -> Camera -> bool;
  subdivision : Context -> TiledGeometryLayer -> Store -> NodeId -> bool;
  removeChildren :
    TiledGeometryLayer -> NodeId -> Store -> Store * option (list NodeId);
  removeChildrenAndCleanup :
    TiledGeometryLayer -> NodeId -> Store -> Store * option (list NodeId);
  findCommonAncestor : Store -> NodeId -> NodeId -> option NodeId
}.

Context {collab : Collaborators}.

(** *** hasEnoughTexturesToSubdivide *)

(** The loop over [context.elevationLayers]: [Normal true] when the loop runs
    to its end, [Normal false] for [return false]. *)
Fixpoint elevationLoop (node : TileMesh) (es : list DataLayer)
    : Completion bool :=
  match es with
  | [] => Normal true
  | e :: es' =>
      let extents := getCoordsForSource (extent node) (l_source e) in
      if negb (l_frozen e) && l_ready e
         && extentsInsideLimit (l_source e) extents
      then
        match material node with
        | None => Throw TypeError
        | Some m =>
            if negb (isElevationLayerLoaded m) then
              if layerInError node (l_id e) then elevationLoop node es'
              else Normal false
            else elevationLoop node es'
        end
      else elevationLoop node es'
  end.

(** The loop over [context.colorLayers]. *)
Fixpoint colorLoop (node : TileMesh) (cs : list DataLayer)
    : Completion bool :=
  match cs with
  | [] => Normal true
  | c :: cs' =>
      if l_frozen c || negb (l_visible c) || negb (l_ready c) then
        colorLoop node cs'
      else if layerInError node (l_id c) then colorLoop node cs'
      else
        let extents := getCoordsForSource (extent node) (l_source c) in
        if extentsInsideLimit (l_source c) extents then
          match material node with
          | None => Throw TypeError
          | Some m =>
              if negb (isColorLayerLoaded m c) then Normal false
              else colorLoop node cs'
          end
        else colorLoop node cs'
  end.

Definition hasEnoughTexturesToSubdivide (context : Context) (node : TileMesh)
    : Completion bool :=
  match elevationLoop node (elevationLayers context) with
  | Normal true => colorLoop node (colorLayers context)
  | r => r
  end.

(** ** The world: store, scheduler and observed calls *)

(** The command object built by subdivideNode. *)
Record Command := {
  c_view : View;
  requester : NodeId;
  c_layer : TiledGeometryLayer;
  priority : Z;
  extentsSource : list Extent;
  redraw : bool
}.

(** Calls that leave the code under study, or that enter subdivideNode, in the
    order they are made. *)
Inductive Call :=
| CallCulling (node : NodeId)
| CallSubdivision (node : NodeId)
| CallSubdivideNode (node : NodeId)
| CallExecute (command : Command)
| CallRemoveChildren (node : NodeId)
| CallRemoveChildrenAndCleanup (node : NodeId)
| CallUpdateMatrixWorld (node : NodeId)
| CallNotifyChange (node : NodeId) (redraw : bool).

(** [outstanding] holds the commands handed to [scheduler.execute] whose
    promise is not settled yet. *)
Record World := {
  store : Store;
  outstanding : list Command;
  calls : list Call
}.

Definition set_store (s : Store) (w : World) : World :=
  {| store := s; outstanding := outstanding w; calls := calls w |}.

Definition set_outstanding (cs : list Command) (w : World) : World :=
  {| store := store w; outstanding := cs; calls := calls w |}.

Definition log (c : Call) (w : World) : World :=
  {| store := store w; outstanding := outstanding w; calls := calls w ++ [c] |}.

(** Code that mutates the world and returns or throws. *)
Definition M (A : Type) : Type := World -> World * Completion A.

Definition ret {A} (a : A) : M A := fun w => (w, Normal a).

Definition bind {A B} (m : M A) (k : A -> M B) : M B :=
  fun w =>
    match m w with
    | (w', Normal a) => k a w'
    | (w', Throw e) => (w', Throw e)
    end.

Definition throw {A} (e : Exn) : M A := fun w => (w, Throw e).

Definition lift {A} (c : Completion A) : M A := fun w => (w, c).

Definition read (node : NodeId) : M TileMesh :=
  fun w => (w, Normal (store w node)).

Definition getStore : M Store := fun w => (w, Normal (store w)).

Definition assign (node : NodeId) (f : TileMesh -> TileMesh) : M unit :=
  fun w => (set_store (upd node (f (store w node)) (store w)) w, Normal tt).

Definition call (c : Call) : M unit := fun w => (log c w, Normal tt).

Notation "x <- m ;; k" := (bind m (fun x => k))
  (at level 20, m at level 99, k at level 200, only parsing).
Notation "m ;;; k" := (bind m (fun _ => k))
  (at level 100, k at level 200, right associativity, only parsing).

Fixpoint forEach {A} (l : list A) (body : A -> M unit) : M unit :=
  match l with
  | [] => ret tt
  | x :: l' => body x ;;; forEach l' body
  end.

(** [this.culling(node, context.camera)] *)
Definition callCulling (this : TiledGeometryLayer) (node : NodeId)
    (cam : Camera) : M bool :=
  call (CallCulling node) ;;;
  s <- getStore ;;
  ret (culling this s node cam).

(** [this.subdivision(context, this, node)] *)
Definition callSubdivision (context : Context) (this : TiledGeometryLayer)
    (node : NodeId) : M bool :=
  call (CallSubdivision node) ;;;
  s <- getStore ;;
  ret (subdivision context this s node).

(** [ObjectRemovalHelper.removeChildren(this, node)] *)
Definition callRemoveChildren (this : TiledGeometryLayer) (node : NodeId)
    : M (option (list NodeId)) :=
  fun w =>
    let r := removeChildren this node (store w) in
    (set_store r.1 (log (CallRemoveChildren node) w), Normal r.2).

(** [ObjectRemovalHelper.removeChildrenAndCleanup(this, node)] *)
Definition callRemoveChildrenAndCleanup (this : TiledGeometryLayer)
    (node : NodeId) : M (option (list NodeId)) :=
  fun w =>
    let r := removeChildrenAndCleanup this node (store w) in
    (set_store r.1 (log (CallRemoveChildrenAndCleanup node) w), Normal r.2).

(** [context.scheduler.execute(command)]: the command is outstanding until
    its promise settles; the callbacks given to [then] run in a later turn. *)
Definition execute (command : Command) : M unit :=
  fun w =>
    (set_outstanding (outstanding w ++ [command]) (log (CallExecute command) w),
     Normal tt).

(** Modelled from the spec: Object3D.add belongs to the scene-graph primitive,
    outside src.  "The node attaches them as its children": the child leaves
    its former parent, if any, its parent link is set to the node and it is
    appended to the node's children; an object is never added to itself. *)
Definition add (node child : NodeId) : M unit :=
  if decide (child = node) then ret tt
  else
    c <- read child ;;
    match parent c with
    | Some p =>
        assign p (fun n => set_children
                    (List.filter (fun x => negb (Nat.eqb x child)) (children n)) n)
    | None => ret tt
    end ;;;
    assign child (set_parent (Some node)) ;;;
    assign node (fun n => set_children (children n ++ [child]) n).

(** *** subdivideNode and its two callbacks *)

(** [node.children.some(n => n.layer == this)] *)
Definition hasChildOfLayer (this : TiledGeometryLayer) (s : Store)
    (node : NodeId) : bool :=
  existsb (fun n => ofLayer this (s n)) (children (s node)).

Definition subdivideNode (this : TiledGeometryLayer) (context : Context)
    (node : NodeId) : M unit :=
  n <- read node ;;
  s <- getStore ;;
  if negb (pendingSubdivision n) && negb (hasChildOfLayer this s node) then
    let extents := extent_subdivision (extent n) in
    assign node (set_pendingSubdivision true) ;;;
    let command :=
      {| c_view := view context; requester := node; c_layer := this;
         priority := 10000%Z; extentsSource := extents; redraw := false |} in
    execute command
  else ret tt.

(** The first callback of [then]: the scheduler yields the children. *)
Definition onFulfilled (node : NodeId) (newChildren : list NodeId) : M unit :=
  forEach newChildren (fun child =>
    add node child ;;;
    call (CallUpdateMatrixWorld child)) ;;;
  assign node (set_pendingSubdivision false) ;;;
  call (CallNotifyChange node false).

(** The second callback of [then]: the command was rejected with [err]. *)
Definition onRejected (node : NodeId) (err : Rejection) : M unit :=
  assign node (set_pendingSubdivision false) ;;;
  if negb (isCancelled err) then throw (Error err) else ret tt.

(** *** update *)

Definition update (this : TiledGeometryLayer) (context : Context)
    (node : NodeId) : M (option (list NodeId)) :=
  n <- read node ;;
  match parent n with
  | None => callRemoveChildrenAndCleanup this node
  | Some p =>
      pn <- read p ;;
      if pendingSubdivision pn then
        assign node (set_visible false) ;;;
        assign node (setDisplayed false) ;;;
        ret None
      else
        culled <- callCulling this node (camera context) ;;
        assign node (set_visible (negb culled)) ;;;
        n <- read node ;;
        if visible n then
          go <- (if pendingSubdivision n then ret true
                 else
                   enough <- lift (hasEnoughTexturesToSubdivide context n) ;;
                   if enough then callSubdivision context this node
                   else ret false) ;;
          requestChildrenUpdate <-
            (if go then
               call (CallSubdivideNode node) ;;;
               subdivideNode this context node ;;;
               n <- read node ;;
               assign node (setDisplayed (pendingSubdivision n)) ;;;
               ret true
             else
               assign node (setDisplayed true) ;;;
               ret false) ;;
          n <- read node ;;
          match material n with
          | None => throw TypeError
          | Some m =>
              let finish :=
                s <- getStore ;;
                ret (if requestChildrenUpdate
                     then Some (List.filter (fun c => ofLayer this (s c))
                                  (children (s node)))
                     else None) in
              if m_visible m then
                match fogDistance (view context) with
                | Some d => assign node (setFog d)
                | None => ret tt
                end ;;;
                if negb requestChildrenUpdate then callRemoveChildren this node
                else finish
              else finish
          end
        else
          assign node (setDisplayed false) ;;;
          callRemoveChildren this node
  end.

(** *** preUpdate *)

(** [Math.max] over the zoom bounds of the elevation layers, from -1. *)
Definition maxZoom (es : list DataLayer) : Z :=
  fold_left (fun acc e => Z.max (zoom_max (l_source e)) acc) es (-1)%Z.

(** The loop over [sources.values()], from the value of [commonAncestor] on
    entry to what preUpdate returns. *)
Fixpoint sourcesLoop (this : TiledGeometryLayer) (s : Store)
    (commonAncestor : option NodeId) (sources : list NodeId) : list NodeId :=
  match sources with
  | [] =>
      match commonAncestor with
      | Some a => [a]
      | None => level0Nodes this
      end
  | source :: rest =>
      if isCamera (s source) then level0Nodes this
      else if ofLayer this (s source) then
        match
          match commonAncestor with
          | None => Some source
          | Some a => findCommonAncestor s source a
          end
        with
        | None => level0Nodes this
        | Some a =>
            sourcesLoop this s
              (match material (s a) with
               | None => None
               | Some _ => Some a
               end) rest
        end
      else sourcesLoop this s commonAncestor rest
  end.

(** [sources] is a JavaScript Set in insertion order; [None] stands for the
    value [undefined].  Past the first test no source is [undefined] and the
    loop runs over the objects.  The result is the context after the call and
    the nodes to update.  (The write-only bookkeeping under the build flag
    __DEBUG__ is left out.) *)
Definition preUpdate (this : TiledGeometryLayer) (s : Store)
    (context : Context) (sources : list (option NodeId))
    : Context * list NodeId :=
  if bool_decide (None ∈ sources) || Nat.eqb (length sources) 0 then
    (context, level0Nodes this)
  else
    let colors :=
      getLayers (view context) (fun l a =>
        match a with
        | Some a_id => String.eqb a_id (id (base this)) && String.eqb (l_type l) "color"
        | None => false
        end) in
    let elevations :=
      getLayers (view context) (fun l a =>
        match a with
        | Some a_id => String.eqb a_id (id (base this)) && String.eqb (l_type l) "elevation"
        | None => false
        end) in
    let m := maxZoom elevations in
    let context' :=
      {| camera := camera context; view := view context;
         colorLayers := colors; elevationLayers := elevations;
         maxElevationLevel := if Z.eqb m (-1)%Z then Infinity else Finite m |} in
    (context', sourcesLoop this s None (omap (fun x => x) sources)).

(** ** Vocabulary of the properties *)

(** The calls made between two worlds (calls are only ever appended). *)
Definition newCalls (w w' : World) : list Call :=
  drop (length (calls w)) (calls w').

(** The context without the layers whose status on the node is in error. *)
Definition dropErrored (node : TileMesh) (context : Context) : Context :=
  {| camera := camera context; view := view context;
     colorLayers :=
       List.filter (fun l => negb (layerInError node (l_id l)))
         (colorLayers context);
     elevationLayers :=
       List.filter (fun l => negb (layerInError node (l_id l)))
         (elevationLayers context);
     maxElevationLevel := maxElevationLevel context |}.

(** One turn of the program: a call of subdivideNode or of update, for any
    layer, context and node, or the settlement of an outstanding command,
    which runs the callback subdivideNode registered for it. *)
Inductive step : World -> World -> Prop :=
| step_subdivideNode this context node w :
    step w (subdivideNode this context node w).1
| step_update this context node w :
    step w (update this context node w).1
| step_fulfilled c newChildren before after w :
    outstanding w = before ++ c :: after ->
    step w (onFulfilled (requester c) newChildren
              (set_outstanding (before ++ after) w)).1
| step_rejected c err before after w :
    outstanding w = before ++ c :: after ->
    step w (onRejected (requester c) err
              (set_outstanding (before ++ after) w)).1.

(** The outstanding commands a node has requested. *)
Definition commandsOf (node : NodeId) (w : World) : list Command :=
  List.filter (fun c => Nat.eqb (requester c) node) (outstanding w).

(** What the engine relies on from ObjectRemovalHelper: a removal does not
    write pendingSubdivision, does not move an object to another layer and
    adds no child to any object. *)
Definition removalFrame (f : Store -> Store * option (list NodeId)) : Prop :=
  forall s m,
    pendingSubdivision ((f s).1 m) = pendingSubdivision (s m) /\
    layer ((f s).1 m) = layer (s m) /\
    children ((f s).1 m) ⊆ children (s m).

Definition removalOnly : Prop :=
  forall this node,
    removalFrame (removeChildren this node) /\
    removalFrame (removeChildrenAndCleanup this node).

(** What holds of every outstanding command. *)
Definition commandInv (w : World) : Prop :=
  NoDup (requester <$> outstanding w) /\
  forall c, c ∈ outstanding w ->
    pendingSubdivision (store w (requester c)) = true /\
    hasChildOfLayer (c_layer c) (store w) (requester c) = false.

(** The same while the command of [node] is being settled: it has left the
    outstanding commands, and no other command is for [node]. *)
Definition settling (node : NodeId) (w : World) : Prop :=
  commandInv w /\ forall c, c ∈ outstanding w -> requester c <> node.

(** A piece of code keeps a property of the world, however it completes. *)
Definition preserves {A} (P : World -> Prop) (m : M A) : Prop :=
  forall w, P w -> P (m w).1.

(** The laws of a partial meet, [None] standing for "no common ancestor". *)
Class PartialMeet (f : NodeId -> NodeId -> option NodeId) : Prop := {
  meet_comm : forall a b, f a b = f b a;
  meet_assoc : forall a b c,
    (f a b ≫= fun x => f x c) = (f b c ≫= fun y => f a y);
  meet_idem : forall a, f a a = Some a
}.

(** The ancestor the specification resolves from the sources: the running
    ancestor is combined with each new source, none aborting the fold. *)
Fixpoint specResolveFrom (s : Store) (a : NodeId) (rest : list NodeId)
    : option NodeId :=
  match rest with
  | [] => Some a
  | b :: rest' =>
      match findCommonAncestor s b a with
      | None => None
      | Some a' => specResolveFrom s a' rest'
      end
  end.

Definition specResolveAncestor (s : Store) (sources : list NodeId)
    : option NodeId :=
  match sources with
  | [] => None
  | a :: rest => specResolveFrom s a rest
  end.

(** The object carries a renderable representation. *)
Definition materialized (s : Store) (n : NodeId) : Prop :=
  material (s n) <> None.

(** The running ancestor of the loop is either unset or materialized. *)
Definition usable (s : Store) (ca : option NodeId) : Prop :=
  forall a, ca = Some a -> materialized s a.

(** ** The rest of GeometryLayer and TiledGeometryLayer *)

(** The object3d handed to a constructor, as the constructor reads it. *)
Record Object3D := {
  isObject3D : bool;
  o_type : string;
  o_name : string
}.

(** The errors the two constructors throw. *)
Inductive InitError :=
| InvalidObject3D
| MissingSchemeTile (layerId : string)
| MissingBuilder (layerId : string).

(** [new GeometryLayer(id, object3d, config)]: the layer, with the identity
    [r] of the new object, and object3d, which is named after the layer when
    it is a Group without a name. *)
Definition newGeometryLayer (r : LayerRef) (i : string)
    (object3d : option Object3D) : InitError + GeometryLayer * Object3D :=
  match object3d with
  | None => inl InvalidObject3D
  | Some o =>
      if negb (isObject3D o) then inl InvalidObject3D
      else
        let o' :=
          if String.eqb (o_type o) "Group" && String.eqb (o_name o) ""
          then {| isObject3D := isObject3D o; o_type := o_type o; o_name := i |}
          else o in
        inr ({| ref := r; id := i; attachedLayers := [] |}, o')
  end.

(** [new TiledGeometryLayer(id, object3d, schemeTile, builder, config)]: the
    layer, object3d, and one call [this.convert(undefined, root)] for each
    root extent, in order.  An empty array is a schemeTile like any other. *)
Definition newTiledGeometryLayer {Builder : Type} (r : LayerRef) (i : string)
    (object3d : option Object3D) (schemeTile : option (list Extent))
    (builder : option Builder)
    : InitError + TiledGeometryLayer * Object3D * list (option NodeId * Extent) :=
  match newGeometryLayer r i object3d with
  | inl e => inl e
  | inr (g, o) =>
      match schemeTile with
      | None => inl (MissingSchemeTile i)
      | Some roots =>
          match builder with
          | None => inl (MissingBuilder i)
          | Some _ =>
              inr ({| base := g; level0Nodes := [] |}, o,
                   map (fun root => (None, root)) roots)
          end
      end
  end.

(** The callback of [Promise.all(promises).then]: the promise yields the
    converted roots, in the order of schemeTile; [object3d] is the object of
    the layer in the store. *)
Definition onRootsConverted (this : TiledGeometryLayer) (object3d : NodeId)
    (level0s : list NodeId) : M TiledGeometryLayer :=
  forEach level0s (fun level0 =>
    add object3d level0 ;;;
    call (CallUpdateMatrixWorld level0)) ;;;
  ret {| base := base this; level0Nodes := level0s |}.

(** Opacities are JavaScript numbers; all the code does with them is copy
    them and compare them to 1.0. *)
Context {Number : Type} (lessThanOne : Number -> bool).

(** [material.uniforms]: [uniforms.opacity], when there is one, is an object
    that holds a value. *)
Record Uniforms := {
  u_opacity : option Number
}.

(** The material as changeOpacity reads it. *)
Record FadingMaterial := {
  fm_opacity : option Number;
  fm_transparent : bool;
  fm_uniforms : option Uniforms
}.

(** [changeOpacity(object)], on [object.material], for a layer whose opacity
    is [opacity]. *)
Definition changeOpacity (opacity : Number)
    (material : option FadingMaterial) : option FadingMaterial :=
  match material with
  | None => None
  | Some m =>
      let m1 :=
        match fm_opacity m with
        | Some _ =>
            {| fm_opacity := Some opacity;
               fm_transparent := lessThanOne opacity;
               fm_uniforms := fm_uniforms m |}
        | None => m
        end in
      Some
        match fm_uniforms m1 with
        | Some u =>
            match u_opacity u with
            | Some _ =>
                {| fm_opacity := fm_opacity m1;
                   fm_transparent := lessThanOne opacity;
                   fm_uniforms := Some {| u_opacity := Some opacity |} |}
            | None => m1
            end
        | None => m1
        end
  end.

(** ** Vocabulary of the further properties *)

(** The layer reaches the test of the elevation texture: it is not frozen,
    it is ready and its source covers the node. *)
Definition elevationApplies (node : TileMesh) (e : DataLayer) : bool :=
  negb (l_frozen e) && l_ready e
  && extentsInsideLimit (l_source e)
       (getCoordsForSource (extent node) (l_source e)).

(** The layer reaches the test of its color texture: it is not frozen, it is
    visible and ready, its status on the node is not in error and its source
    covers the node. *)
Definition colorApplies (node : TileMesh) (c : DataLayer) : bool :=
  negb (l_frozen c || negb (l_visible c) || negb (l_ready c))
  && negb (layerInError node (l_id c))
  && extentsInsideLimit (l_source c)
       (getCoordsForSource (extent node) (l_source c)).

(** A source that the loop of preUpdate looks at: undefined, the camera or a
    node of this layer. *)
Definition relevantSource (this : TiledGeometryLayer) (s : Store)
    (o : option NodeId) : bool :=
  match o with
  | None => true
  | Some x => isCamera (s x) || ofLayer this (s x)
  end.

(** The one thing the correspondence between flags and commands needs from
    ObjectRemovalHelper: a removal does not write pendingSubdivision. *)
Definition removalKeepsFlags : Prop :=
  forall this node s m,
    pendingSubdivision ((removeChildren this node s).1 m)
      = pendingSubdivision (s m)
    /\ pendingSubdivision ((removeChildrenAndCleanup this node s).1 m)
       = pendingSubdivision (s m).

(** No node has two outstanding commands, and the raised flags are those of
    the nodes that have one. *)
Definition requestInv (w : World) : Prop :=
  NoDup (requester <$> outstanding w)
  /\ forall n, pendingSubdivision (store w n) = true
       <-> exists c, c ∈ outstanding w /\ requester c = n.

End Engine.

(** ** A concrete scene *)

(** A chain of tiles of layer 0: tile 0 is the root and tile k+1 is the only
    child of tile k, so the closest common ancestor of two tiles is the one
    with the smaller number.  Tile 1 has no material. *)
Module Demo.

Definition shownMaterial : @Material unit :=
  {| m_visible := true; isElevationLayerLoaded := false;
     isColorLayerLoaded := fun _ => false; m_fogDistance := None |}.

Definition chainTile (k : NodeId) : @TileMesh unit :=
  {| parent := match k with O => None | S k' => Some k' end;
     children := [S k]; layer := Some 0%nat; extent := tt;
     pendingSubdivision := false; visible := true; displayed := true;
     material := if Nat.eqb k 1 then None else Some shownMaterial;
     layerUpdateState := ∅; isCamera := false |}.

(** The same chain with a material on every tile. *)
Definition solidTile (k : NodeId) : @TileMesh unit :=
  set_material (Some shownMaterial) (chainTile k).

(** The chain, with the camera as object 9. *)
Definition withCamera (k : NodeId) : @TileMesh unit :=
  if Nat.eqb k 9 then
    {| parent := None; children := []; layer := None; extent := tt;
       pendingSubdivision := false; visible := true; displayed := false;
       material := None; layerUpdateState := ∅; isCamera := true |}
  else chainTile k.

(** A tile of layer 0 under tile 0 that has no child yet. *)
Definition leafTile : @TileMesh unit :=
  {| parent := Some 0%nat; children := []; layer := Some 0%nat; extent := tt;
     pendingSubdivision := false; visible := true; displayed := true;
     material := Some shownMaterial; layerUpdateState := ∅;
     isCamera := false |}.

(** The removal helpers of the scene drop the children of the layer. *)
Definition dropChildren (this : TiledGeometryLayer) (node : NodeId)
    (s : @Store unit) : @Store unit * option (list NodeId) :=
  (upd node
     (set_children
        (List.filter (fun c => negb (ofLayer this (s c))) (children (s node)))
        (s node)) s,
   None).

#[global] Instance chainCollab : @Collaborators unit unit :=
  {| extent_subdivision := fun _ => [tt; tt; tt; tt];
     getCoordsForSource := fun _ _ => [tt];
     culling := fun _ _ _ _ => false;
     subdivision := fun _ _ _ _ => true;
     removeChildren := dropChildren;
     removeChildrenAndCleanup := dropChildren;
     findCommonAncestor := fun _ a b => Some (Nat.min a b) |}.

Definition globe : TiledGeometryLayer :=
  {| base := {| ref := 0%nat; id := "globe"; attachedLayers := [] |};
     level0Nodes := [0%nat] |}.

Definition emptyView : @View unit :=
  {| fogDistance := None; view_layers := [] |}.

Definition context0 : @Context unit unit :=
  {| camera := tt; view := emptyView; colorLayers := [];
     elevationLayers := []; maxElevationLevel := Infinity |}.

Definition chainWorld : @World unit :=
  {| store := chainTile; outstanding := []; calls := [] |}.

Definition leafWorld : @World unit :=
  {| store := fun _ => leafTile; outstanding := []; calls := [] |}.

(** A tile whose load of the layer named relief has failed. *)
Definition failedTile : @TileMesh unit :=
  {| parent := Some 0%nat; children := []; layer := Some 0%nat; extent := tt;
     pendingSubdivision := false; visible := true; displayed := true;
     material := Some shownMaterial;
     layerUpdateState := {[ "relief" := InError ]}; isCamera := false |}.

(** The chain with a material on every tile, tile 0 being subdivided. *)
Definition rootBusyWorld : @World unit :=
  {| store := fun k => set_pendingSubdivision (Nat.eqb k 0) (solidTile k);
     outstanding := []; calls := [] |}.

Definition solidWorld : @World unit :=
  {| store := solidTile; outstanding := []; calls := [] |}.

(** Leaves under tile 0, tile 3 being subdivided. *)
Definition busyWorld : @World unit :=
  {| store := fun k => set_pendingSubdivision (Nat.eqb k 3) leafTile;
     outstanding := []; calls := [] |}.

(** The command subdivideNode builds for tile 3 of [leafWorld]. *)
Definition command3 : @Command unit :=
  {| c_view := emptyView; requester := 3%nat; c_layer := globe;
     priority := 10000%Z; extentsSource := [tt; tt; tt; tt];
     redraw := false |}.

(** An elevation layer that is ready and covers every tile. *)
Definition relief : @DataLayer unit :=
  {| l_id := "relief"; l_type := "elevation"; l_frozen := false;
     l_ready := true; l_visible := true;
     l_source := {| zoom_max := 12%Z; extentsInsideLimit := fun _ => true |} |}.

Definition contextRelief : @Context unit unit :=
  {| camera := tt; view := emptyView; colorLayers := [];
     elevationLayers := [relief]; maxElevationLevel := Finite 12%Z |}.

(** A second tiled layer, to which no tile of the scenes belongs. *)
Definition moon : TiledGeometryLayer :=
  {| base := {| ref := 1%nat; id := "moon"; attachedLayers := [] |};
     level0Nodes := [40%nat; 41%nat] |}.

(** The collaborators of a layer that still has the culling placeholder of
    GeometryLayer, which rejects every node. *)
Definition hiddenCollab : @Collaborators unit unit :=
  {| extent_subdivision := fun _ => [tt; tt; tt; tt];
     getCoordsForSource := fun _ _ => [tt];
     culling := fun _ _ _ _ => true;
     subdivision := fun _ _ _ _ => true;
     removeChildren := dropChildren;
     removeChildrenAndCleanup := dropChildren;
     findCommonAncestor := fun _ a b => Some (Nat.min a b) |}.

(** A cleanup that also unlinks the cleaned node from its layer. *)
Definition unlinkAndDrop (this : TiledGeometryLayer) (node : NodeId)
    (s : @Store unit) : @Store unit * option (list NodeId) :=
  (upd node
     {| parent := parent (s node);
        children :=
          List.filter (fun c => negb (ofLayer this (s c))) (children (s node));
        layer := None; extent := extent (s node);
        pendingSubdivision := pendingSubdivision (s node);
        visible := visible (s node); displayed := displayed (s node);
        material := material (s node);
        layerUpdateState := layerUpdateState (s node);
        isCamera := isCamera (s node) |} s,
   None).

Definition unlinkCollab : @Collaborators unit unit :=
  {| extent_subdivision := fun _ => [tt; tt; tt; tt];
     getCoordsForSource := fun _ _ => [tt];
     culling := fun _ _ _ _ => false;
     subdivision := fun _ _ _ _ => true;
     removeChildren := dropChildren;
     removeChildrenAndCleanup := unlinkAndDrop;
     findCommonAncestor := fun _ a b => Some (Nat.min a b) |}.

(** Leaves under tile 0, tile 0 itself having left the scene graph. *)
Definition orphanWorld : @World unit :=
  {| store := fun k =>
       if Nat.eqb k 0 then set_parent None leafTile else leafTile;
     outstanding := []; calls := [] |}.

(** A frozen elevation layer. *)
Definition frozenRelief : @DataLayer unit :=
  {| l_id := "frozen"; l_type := "elevation"; l_frozen := true;
     l_ready := true; l_visible := true;
     l_source := {| zoom_max := 15%Z; extentsInsideLimit := fun _ => true |} |}.

Definition contextTwo : @Context unit unit :=
  {| camera := tt; view := emptyView; colorLayers := [];
     elevationLayers := [relief; frozenRelief];
     maxElevationLevel := Finite 15%Z |}.

Definition contextTwoSwapped : @Context unit unit :=
  {| camera := tt; view := emptyView; colorLayers := [];
     elevationLayers := [frozenRelief; relief];
     maxElevationLevel := Finite 15%Z |}.

(** A view in which the two elevation layers are attached to the globe. *)
Definition reliefView : @View unit :=
  {| fogDistance := Some 5000%Z;
     view_layers := [(relief, Some "globe"); (frozenRelief, Some "globe")] |}.

Definition contextView : @Context unit unit :=
  {| camera := tt; view := reliefView; colorLayers := [];
     elevationLayers := []; maxElevationLevel := Infinity |}.

(** A geometry layer with one attached layer, and two layers to attach. *)
Definition labels : Layer :=
  {| layer_ref := 5%nat; layer_id := "labels"; layer_update := true |}.

Definition roads : Layer :=
  {| layer_ref := 6%nat; layer_id := "roads"; layer_update := true |}.

Definition buildings : GeometryLayer :=
  {| ref := 2%nat; id := "buildings"; attachedLayers := [labels] |}.

End Demo.

(** * Properties *)

(** ** GeometryLayer.detach *)

Lemma filter_length_lt {A} (p : A -> bool) (l : list A) :
  (length (List.filter p l) < length l)%nat <-> exists a, a ∈ l /\ p a = false.
Proof.
  induction l as [|x l IH]; simpl.
  - split; [lia | intros (a & Ha & _); by apply elem_of_nil in Ha].
  - pose proof (filter_length_le p l) as Hle.
    destruct (p x) eqn:Hx; simpl.
    + rewrite <- Nat.succ_lt_mono, IH. split.
      * intros (a & Ha & Hp). exists a. split; [by right | done].
      * intros (a & Ha & Hp). apply elem_of_cons in Ha as [-> | Ha];
          [congruence | eauto].
    + split; [| lia]. intros _. exists x. split; [by left | done].
Qed.

Lemma filter_bool_prop {A} (p : A -> bool) (P : A -> Prop)
    `{forall a, Decision (P a)} (l : list A) :
  (forall a, p a = true <-> P a) -> List.filter p l = filter P l.
Proof.
  intros Hp. induction l as [|x l IH]; [done |]. simpl.
  rewrite filter_cons. destruct (p x) eqn:Hx.
  - rewrite decide_True by (by apply Hp). by rewrite IH.
  - rewrite decide_False; [done |]. rewrite <- Hp. congruence.
Qed.

(** C10: detach(layer) keeps exactly the attached layers whose id differs
    from [layer.id], in their original order (so every attached layer with
    that id goes, whichever object it is), leaves the rest of the layer
    alone, and returns true exactly when some attached layer had that id. *)
Theorem detach_removes_by_id (this : GeometryLayer) (l : Layer) :
  attachedLayers (detach this l).1
    = filter (fun a => layer_id a <> layer_id l) (attachedLayers this)
  /\ (forall a, a ∈ attachedLayers this -> layer_id a = layer_id l ->
        a ∉ attachedLayers (detach this l).1)
  /\ (forall a, a ∈ attachedLayers this -> layer_id a <> layer_id l ->
        a ∈ attachedLayers (detach this l).1)
  /\ ref (detach this l).1 = ref this
  /\ id (detach this l).1 = id this
  /\ ((detach this l).2 = true
      <-> exists a, a ∈ attachedLayers this /\ layer_id a = layer_id l).
Proof.
  assert (Hf : attachedLayers (detach this l).1
    = filter (fun a => layer_id a <> layer_id l) (attachedLayers this)).
  { simpl. apply filter_bool_prop. intros a.
    rewrite negb_true_iff, String.eqb_neq. done. }
  split; [exact Hf |]. rewrite Hf.
  split; [| split; [| split; [| split]]]; try done.
  - intros a _ Heq Hin. apply list_elem_of_filter in Hin as [Hne _]. done.
  - intros a Hin Hne. by apply list_elem_of_filter.
  - unfold detach. cbn [snd]. rewrite Nat.ltb_lt. cbn [attachedLayers set_attachedLayers].
    rewrite filter_length_lt. split; intros (a & Ha & Hp); exists a; split; try done.
    + by apply negb_false_iff, String.eqb_eq in Hp.
    + by apply negb_false_iff, String.eqb_eq.
Qed.

Section Properties.

Context {Extent Camera : Type} {collab : @Collaborators Extent Camera}.

Implicit Types (w : @World Extent) (s : @Store Extent) (n : @TileMesh Extent).
Implicit Types (node p : NodeId) (this : TiledGeometryLayer).
Implicit Types (context : @Context Extent Camera).

(** ** The readiness gate *)

Lemma elevationLoop_dropErrored n (es : list DataLayer) b :
  elevationLoop n es = Normal b ->
  elevationLoop n (List.filter (fun l => negb (layerInError n (l_id l))) es)
    = Normal b.
Proof.
  induction es as [|e es IH]; [done |]. simpl.
  destruct (layerInError n (l_id e)) eqn:Herr; simpl.
  - destruct (negb (l_frozen e) && l_ready e && _); [| done].
    destruct (material n) as [m|]; [| done].
    destruct (negb (isElevationLayerLoaded m)); done.
  - rewrite Herr.
    destruct (negb (l_frozen e) && l_ready e && _); [| done].
    destruct (material n) as [m|]; [| done].
    destruct (negb (isElevationLayerLoaded m)); done.
Qed.

Lemma colorLoop_dropErrored n (cs : list DataLayer) b :
  colorLoop n cs = Normal b ->
  colorLoop n (List.filter (fun l => negb (layerInError n (l_id l))) cs)
    = Normal b.
Proof.
  induction cs as [|c cs IH]; [done |]. simpl.
  destruct (layerInError n (l_id c)) eqn:Herr; simpl.
  - destruct (l_frozen c || negb (l_visible c) || negb (l_ready c)); done.
  - rewrite Herr.
    destruct (l_frozen c || negb (l_visible c) || negb (l_ready c)); [done |].
    destruct (extentsInsideLimit _ _); [| done].
    destruct (material n) as [m|]; [| done].
    destruct (negb (isColorLayerLoaded m c)); done.
Qed.

Lemma elevationLoop_material n (es : list DataLayer) :
  material n <> None ->
  elevationLoop n (List.filter (fun l => negb (layerInError n (l_id l))) es)
    = elevationLoop n es.
Proof.
  intros Hm. induction es as [|e es IH]; [done |]. simpl.
  destruct (material n) as [m|] eqn:Em; [| done].
  destruct (layerInError n (l_id e)) eqn:Herr; simpl.
  - destruct (negb (l_frozen e) && l_ready e && _); [| done].
    destruct (negb (isElevationLayerLoaded m)); done.
  - rewrite Em, Herr, IH. done.
Qed.

Lemma colorLoop_material n (cs : list DataLayer) :
  material n <> None ->
  colorLoop n (List.filter (fun l => negb (layerInError n (l_id l))) cs)
    = colorLoop n cs.
Proof.
  intros Hm. induction cs as [|c cs IH]; [done |]. simpl.
  destruct (layerInError n (l_id c)) eqn:Herr; simpl.
  - destruct (l_frozen c || negb (l_visible c) || negb (l_ready c)); done.
  - rewrite Herr, IH. done.
Qed.

Lemma filter_all_false {A} (p : A -> bool) (l : list A) :
  (forall a, a ∈ l -> p a = false) -> List.filter p l = [].
Proof.
  induction l as [|x l IH]; [done |]. intros H. simpl.
  rewrite (H x) by (by left). apply IH. intros a Ha. apply H. by right.
Qed.

(** C3: a layer whose status on the node is in error never makes
    hasEnoughTexturesToSubdivide false.  Whatever the gate returns, it
    returns the same once every errored layer is taken out of the context
    (so a false result is always due to a layer that is not in error); when
    the node has a material the two calls agree altogether; and when every
    layer of the context is in error on the node the gate does not return
    false. *)
Theorem errored_layers_never_block context n :
  (forall b, hasEnoughTexturesToSubdivide context n = Normal b ->
     hasEnoughTexturesToSubdivide (dropErrored n context) n = Normal b)
  /\ (material n <> None ->
      hasEnoughTexturesToSubdivide (dropErrored n context) n
        = hasEnoughTexturesToSubdivide context n)
  /\ ((forall l, l ∈ elevationLayers context ++ colorLayers context ->
         layerInError n (l_id l) = true) ->
      hasEnoughTexturesToSubdivide context n <> Normal false).
Proof.
  assert (H1 : forall b, hasEnoughTexturesToSubdivide context n = Normal b ->
     hasEnoughTexturesToSubdivide (dropErrored n context) n = Normal b).
  { intros b. unfold hasEnoughTexturesToSubdivide, dropErrored. simpl.
    destruct (elevationLoop n (elevationLayers context)) as [[|]|] eqn:He;
      [| | done].
    - rewrite (elevationLoop_dropErrored _ _ _ He). apply colorLoop_dropErrored.
    - rewrite (elevationLoop_dropErrored _ _ _ He). done. }
  split; [exact H1 |]. split.
  - intros Hm. unfold hasEnoughTexturesToSubdivide, dropErrored. simpl.
    rewrite elevationLoop_material, colorLoop_material; done.
  - intros Hall Hfalse. apply H1 in Hfalse. revert Hfalse.
    unfold hasEnoughTexturesToSubdivide, dropErrored. simpl.
    rewrite !filter_all_false; [done | |].
    + intros l Hl. rewrite Hall; [done |]. apply elem_of_app. by right.
    + intros l Hl. rewrite Hall; [done |]. apply elem_of_app. by left.
Qed.


(** ** The store *)

Lemma upd_same node (v : @TileMesh Extent) s : upd node v s node = v.
Proof. unfold upd. by rewrite Nat.eqb_refl. Qed.

Lemma upd_other node m (v : @TileMesh Extent) s :
  m <> node -> upd node v s m = s m.
Proof. intros H. unfold upd. by apply Nat.eqb_neq in H as ->. Qed.

Lemma newCalls_app w w' (l : list Call) :
  calls w' = calls w ++ l -> newCalls w w' = l.
Proof. intros H. unfold newCalls. rewrite H. apply drop_app_length. Qed.

Ltac run :=
  unfold update, subdivideNode, callCulling, callSubdivision,
    callRemoveChildren, callRemoveChildrenAndCleanup, execute,
    bind, read, assign, call, getStore, ret, lift, throw;
  cbn [fst snd store calls outstanding set_store set_outstanding log].

Ltac no_such_call H :=
  repeat (apply elem_of_cons in H as [H | H]; [discriminate H |]);
  by apply elem_of_nil in H.

Ltac not_in_calls :=
  let H := fresh in
  intros; intros H; no_such_call H.

(** ** update *)

Lemma elevationLoop_set_visible b n (es : list DataLayer) :
  elevationLoop (set_visible b n) es = elevationLoop n es.
Proof. induction es as [|e es IH]; [done |]. simpl. by rewrite IH. Qed.

Lemma colorLoop_set_visible b n (cs : list DataLayer) :
  colorLoop (set_visible b n) cs = colorLoop n cs.
Proof. induction cs as [|c cs IH]; [done |]. simpl. by rewrite IH. Qed.

Lemma hasEnough_set_visible b context n :
  hasEnoughTexturesToSubdivide context (set_visible b n)
    = hasEnoughTexturesToSubdivide context n.
Proof.
  unfold hasEnoughTexturesToSubdivide.
  by rewrite elevationLoop_set_visible, colorLoop_set_visible.
Qed.

(** C9: when the parent of the node is being subdivided, update hides the
    node: [visible] and [displayed] are false afterwards, nothing is called
    (no culling test, no subdivision, no removal of children), no command is
    submitted, no object gains or loses a child or changes its
    pendingSubdivision, no other object changes, and update returns
    undefined, so that no child is visited. *)
Theorem update_parent_subdividing this context node p w :
  parent (store w node) = Some p ->
  pendingSubdivision (store w p) = true ->
  (update this context node w).2 = Normal None
  /\ visible (store (update this context node w).1 node) = false
  /\ displayed (store (update this context node w).1 node) = false
  /\ calls (update this context node w).1 = calls w
  /\ outstanding (update this context node w).1 = outstanding w
  /\ (forall m,
        children (store (update this context node w).1 m)
          = children (store w m)
        /\ pendingSubdivision (store (update this context node w).1 m)
          = pendingSubdivision (store w m))
  /\ (forall m, m <> node -> store (update this context node w).1 m = store w m).
Proof.
  intros Hp Hpend. run. rewrite Hp, Hpend. cbn.
  rewrite !upd_same. repeat split; try done.
  - destruct (decide (m = node)) as [-> | Hm];
      [by rewrite !upd_same | by rewrite !upd_other].
  - destruct (decide (m = node)) as [-> | Hm];
      [by rewrite !upd_same | by rewrite !upd_other].
  - intros m Hm. by rewrite !upd_other.
Qed.

Ltac in_calls :=
  repeat first [apply list_elem_of_here | apply list_elem_of_further].

Ltac known_calls :=
  unfold newCalls;
  cbn [fst snd store calls outstanding set_store set_outstanding log];
  rewrite <- ?app_assoc, ?drop_app_length, ?drop_all; cbn [app].

(** C4: for a node whose pendingSubdivision is false and on which
    hasEnoughTexturesToSubdivide returns false, update does not call
    subdivideNode, does not even consult the subdivision criterion, and
    submits no command, whatever the criterion and the culling oracle are;
    and for a visible node whose pendingSubdivision is true, update does go
    through subdivideNode. *)
Theorem gate_blocks_new_subdivision this context node w :
  (pendingSubdivision (store w node) = false ->
   hasEnoughTexturesToSubdivide context (store w node) = Normal false ->
   (CallSubdivideNode node ∉ newCalls w (update this context node w).1)
   /\ (CallSubdivision node ∉ newCalls w (update this context node w).1)
   /\ (forall c, CallExecute c ∉ newCalls w (update this context node w).1)
   /\ outstanding (update this context node w).1 = outstanding w)
  /\ (forall p,
        parent (store w node) = Some p ->
        pendingSubdivision (store w p) = false ->
        culling this (store w) node (camera context) = false ->
        pendingSubdivision (store w node) = true ->
        CallSubdivideNode node ∈ newCalls w (update this context node w).1).
Proof.
  split.
  - intros Hpend Hgate. run.
    destruct (parent (store w node)) as [p|] eqn:Hp;
      [| known_calls; repeat split; try done; not_in_calls].
    destruct (pendingSubdivision (store w p)) eqn:Hpp;
      [cbn; known_calls; repeat split; try done; not_in_calls |].
    cbn. rewrite !upd_same. cbn.
    destruct (culling this (store w) node (camera context)) eqn:Hc; cbn;
      rewrite ?upd_same; cbn;
      [known_calls; repeat split; try done; not_in_calls |].
    rewrite Hpend, hasEnough_set_visible, Hgate. cbn. rewrite !upd_same. cbn.
    destruct (material (store w node)) as [m|]; cbn;
      [| known_calls; repeat split; try done; not_in_calls].
    destruct (fogDistance (view context)); cbn;
      known_calls; repeat split; try done; not_in_calls.
  - intros p Hp Hpp Hc Hpend. run. rewrite Hp, Hpp. cbn.
    rewrite Hc. cbn. rewrite !upd_same. cbn. rewrite Hpend. cbn.
    rewrite !upd_same. cbn. rewrite Hpend. cbn. rewrite !upd_same. cbn.
    destruct (material (store w node)) as [m|]; cbn; rewrite ?Hpend;
      [| known_calls; in_calls].
    destruct (fogDistance (view context)); cbn;
      known_calls; in_calls.
Qed.

Lemma hasChildOfLayer_upd this node m (v : @TileMesh Extent) s :
  children v = children (s node) -> layer v = layer (s node) ->
  hasChildOfLayer this (upd node v s) m = hasChildOfLayer this s m.
Proof.
  intros Hc Hl. unfold hasChildOfLayer.
  assert (Hch : children (upd node v s m) = children (s m)).
  { destruct (decide (m = node)) as [-> | Hm];
      [by rewrite upd_same | by rewrite upd_other]. }
  assert (Hof : forall c, ofLayer this (upd node v s c) = ofLayer this (s c)).
  { intros c. unfold ofLayer. destruct (decide (c = node)) as [-> | Hm];
      [by rewrite upd_same, Hl | by rewrite upd_other]. }
  rewrite Hch. clear Hch. induction (children (s m)) as [|c l IH]; [done |].
  simpl. by rewrite Hof, IH.
Qed.

Ltac absurd_calls H :=
  exfalso; revert H; known_calls; intros H; no_such_call H.

(** C5: whenever update takes the subdividing branch (it calls
    subdivideNode), the displayed flag of the node afterwards is the value
    pendingSubdivision has after subdivideNode; in particular a node whose
    pendingSubdivision is cleared and that has a child of this layer comes
    out not displayed, still not pending, with the same children and with no
    new command; and a node that enters with pendingSubdivision cleared and
    comes out displayed has no child of this layer. *)
Theorem displayed_follows_pending this context node w :
  CallSubdivideNode node ∈ newCalls w (update this context node w).1 ->
  displayed (store (update this context node w).1 node)
    = pendingSubdivision (store (update this context node w).1 node)
  /\ (pendingSubdivision (store w node) = false ->
      hasChildOfLayer this (store w) node = true ->
      displayed (store (update this context node w).1 node) = false
      /\ pendingSubdivision (store (update this context node w).1 node) = false
      /\ outstanding (update this context node w).1 = outstanding w
      /\ children (store (update this context node w).1 node)
           = children (store w node))
  /\ (pendingSubdivision (store w node) = false ->
      displayed (store (update this context node w).1 node) = true ->
      hasChildOfLayer this (store (update this context node w).1) node
        = false).
Proof.
  run.
  destruct (parent (store w node)) as [p|] eqn:Hp;
    [| intros H; absurd_calls H].
  destruct (pendingSubdivision (store w p)) eqn:Hpp;
    [cbn; intros H; absurd_calls H |].
  cbn. rewrite !upd_same. cbn.
  destruct (culling this (store w) node (camera context)) eqn:Hc; cbn;
    rewrite ?upd_same; cbn; [intros H; absurd_calls H |].
  rewrite hasEnough_set_visible.
  destruct (pendingSubdivision (store w node)) eqn:Hpend; cbn.
  - rewrite !upd_same. cbn. rewrite Hpend. cbn. rewrite !upd_same. cbn.
    rewrite Hpend. intros _.
    destruct (material (store w node)) as [m|]; cbn;
      [destruct (fogDistance (view context)); cbn |];
      rewrite ?upd_same; cbn; rewrite ?Hpend; done.
  - destruct (hasEnoughTexturesToSubdivide context (store w node))
      as [[|]|] eqn:Hgate; cbn.
    + destruct (subdivision context this _ node) eqn:Hsub; cbn;
        rewrite ?upd_same; cbn; rewrite ?Hpend; cbn.
      * rewrite (hasChildOfLayer_upd this node node) by done.
        destruct (hasChildOfLayer this (store w) node) eqn:Hch; cbn;
          rewrite ?upd_same; cbn; rewrite ?Hpend; cbn; intros _;
          (destruct (material (store w node)) as [m|] eqn:Hm; cbn;
           [destruct (fogDistance (view context)); cbn |];
           rewrite ?upd_same; cbn; rewrite ?Hpend, ?Hm; cbn;
           (split; [done |]); (split; [done |]); intros _; try done;
           intros _;
           repeat (rewrite hasChildOfLayer_upd;
                   [| by rewrite ?upd_same | by rewrite ?upd_same]);
           done).
      * destruct (material (store w node)) as [m|]; cbn;
          [destruct (fogDistance (view context)); cbn |];
          intros H; absurd_calls H.
    + rewrite !upd_same. cbn.
      destruct (material (store w node)) as [m|]; cbn;
        [destruct (fogDistance (view context)); cbn |];
        intros H; absurd_calls H.
    + intros H; absurd_calls H.
Qed.

(** ** preUpdate *)

Lemma sourcesLoop_camera this s ca (l : list NodeId) :
  (exists x, x ∈ l /\ isCamera (s x) = true) ->
  sourcesLoop this s ca l = level0Nodes this.
Proof.
  revert ca. induction l as [|y l IH]; intros ca [x [Hx Hcam]].
  - by apply elem_of_nil in Hx.
  - simpl. destruct (isCamera (s y)) eqn:Hy; [done |].
    assert (Hl : exists x, x ∈ l /\ isCamera (s x) = true).
    { apply elem_of_cons in Hx as [-> | Hx]; [congruence | eauto]. }
    destruct (ofLayer this (s y)); [| by apply IH].
    destruct ca as [a|].
    + destruct (findCommonAncestor s y a); [by apply IH | done].
    + by apply IH.
Qed.

(** C6: as soon as one source is the camera, preUpdate returns level0Nodes,
    whatever else the set holds and wherever the camera comes in the
    iteration (this includes, and does not need, that the set is non-empty
    and free of undefined). *)
Theorem preUpdate_camera this s context (sources : list (option NodeId)) :
  (exists x, Some x ∈ sources /\ isCamera (s x) = true) ->
  (preUpdate this s context sources).2 = level0Nodes this.
Proof.
  intros [x [Hx Hcam]]. unfold preUpdate.
  destruct (bool_decide (None ∈ sources) || Nat.eqb (length sources) 0);
    [done |]. cbn [snd].
  apply sourcesLoop_camera. exists x. split; [| done].
  apply list_elem_of_omap. by exists (Some x).
Qed.

Lemma sourcesLoop_swap this s ca x y (l : list NodeId) :
  PartialMeet (findCommonAncestor s) ->
  (forall a b c, materialized s a -> materialized s b ->
     findCommonAncestor s a b = Some c -> materialized s c) ->
  usable s ca ->
  (ofLayer this (s x) = true -> materialized s x) ->
  (ofLayer this (s y) = true -> materialized s y) ->
  sourcesLoop this s ca (y :: x :: l) = sourcesLoop this s ca (x :: y :: l).
Proof.
  intros Hmeet Hclosed Hca Hx Hy. simpl.
  destruct (isCamera (s y)) eqn:Cy, (isCamera (s x)) eqn:Cx; try done.
  - destruct (ofLayer this (s x)); [| done].
    destruct ca as [a|]; [destruct (findCommonAncestor s x a) |]; done.
  - destruct (ofLayer this (s y)); [| done].
    destruct ca as [a|]; [destruct (findCommonAncestor s y a) |]; done.
  - destruct (ofLayer this (s y)) eqn:Ly, (ofLayer this (s x)) eqn:Lx;
      try done.
    specialize (Hx eq_refl). specialize (Hy eq_refl).
    assert (Hmat : forall a, materialized s a ->
      match material (s a) with Some _ => Some a | None => None end = Some a).
    { intros a Ha. unfold materialized in Ha. by destruct (material (s a)). }
    destruct ca as [a|].
    + specialize (Hca a eq_refl).
      pose proof (meet_assoc (f:=findCommonAncestor s) x y a) as H1.
      pose proof (meet_assoc (f:=findCommonAncestor s) y x a) as H2.
      rewrite (meet_comm (f:=findCommonAncestor s) y x) in H2.
      rewrite H1 in H2. clear H1.
      destruct (findCommonAncestor s y a) as [b|] eqn:Eb,
               (findCommonAncestor s x a) as [b'|] eqn:Eb'; simpl in H2.
      * rewrite (Hmat b), (Hmat b') by eauto. rewrite H2.
        destruct (findCommonAncestor s y b') as [c|] eqn:Ec; [| done].
        done.
      * rewrite (Hmat b) by eauto. by rewrite H2.
      * rewrite (Hmat b') by eauto. by rewrite <- H2.
      * done.
    + rewrite (Hmat x), (Hmat y) by done.
      by rewrite (meet_comm (f:=findCommonAncestor s) x y).
Qed.

Lemma sourcesLoop_Permutation this s (l l' : list NodeId) :
  PartialMeet (findCommonAncestor s) ->
  (forall a b c, materialized s a -> materialized s b ->
     findCommonAncestor s a b = Some c -> materialized s c) ->
  l ≡ₚ l' ->
  forall ca, usable s ca ->
  (forall x, x ∈ l -> ofLayer this (s x) = true -> materialized s x) ->
  sourcesLoop this s ca l = sourcesLoop this s ca l'.
Proof.
  intros Hmeet Hclosed Hperm.
  induction Hperm as [|x l l' Hperm IH|x y l|l l' l'' H1 IH1 H2 IH2];
    intros ca Hca Hsrc.
  - done.
  - assert (Hl : forall z, z ∈ l -> ofLayer this (s z) = true -> materialized s z).
    { intros z Hz. apply Hsrc. by right. }
    simpl. destruct (isCamera (s x)); [done |].
    destruct (ofLayer this (s x)) eqn:Lx; [| by apply IH].
    destruct (match ca with Some a => findCommonAncestor s x a | None => Some x end)
      as [a|]; [| done].
    apply IH; [| done]. intros b Hb. unfold materialized.
    destruct (material (s a)) eqn:Ea; [| done]. injection Hb as <-.
    by rewrite Ea.
  - apply sourcesLoop_swap; try done.
    + apply Hsrc. right. by left.
    + apply Hsrc. by left.
  - rewrite IH1 by done. apply IH2; [done |].
    intros x Hx. apply Hsrc. by rewrite H1.
Qed.

(** X26: when findCommonAncestor is a commutative, associative, idempotent
    partial meet, every source that is a node of this layer has a material,
    and the common ancestor of two nodes that have a material has one too,
    preUpdate returns the same context and the same nodes for every
    iteration order of the sources. *)
Theorem preUpdate_order_independent this s context
    (sources sources' : list (option NodeId)) :
  PartialMeet (findCommonAncestor s) ->
  (forall x, Some x ∈ sources -> ofLayer this (s x) = true ->
     materialized s x) ->
  (forall a b c, materialized s a -> materialized s b ->
     findCommonAncestor s a b = Some c -> materialized s c) ->
  sources ≡ₚ sources' ->
  preUpdate this s context sources = preUpdate this s context sources'.
Proof.
  intros Hmeet Hsrc Hclosed Hperm. unfold preUpdate.
  assert (Hnone : bool_decide (None ∈ sources) = bool_decide (None ∈ sources')).
  { apply bool_decide_ext. by rewrite Hperm. }
  rewrite <- Hnone, <- (Permutation_length Hperm).
  destruct (bool_decide (None ∈ sources) || Nat.eqb (length sources) 0);
    [done |].
  f_equal. apply sourcesLoop_Permutation; try done.
  - by apply omap_Permutation.
  - intros x Hx. apply Hsrc. apply list_elem_of_omap in Hx as [[y|] [Hy Heq]];
      simpl in Heq; [by injection Heq as -> | done].
Qed.


(** ** Outstanding commands *)

Lemma existsb_false {A} (f : A -> bool) (l : list A) :
  existsb f l = false <-> forall x, x ∈ l -> f x = false.
Proof.
  induction l as [|y l IH]; simpl.
  - split; [intros _ x Hx; by apply elem_of_nil in Hx | done].
  - rewrite orb_false_iff, IH. split.
    + intros [Hy Hl] x Hx. apply elem_of_cons in Hx as [-> | Hx]; auto.
    + intros H. split; [apply H; by left | intros x Hx; apply H; by right].
Qed.

Lemma hasChildOfLayer_mono this s s' node :
  (forall m, layer (s' m) = layer (s m)) ->
  children (s' node) ⊆ children (s node) ->
  hasChildOfLayer this s node = false ->
  hasChildOfLayer this s' node = false.
Proof.
  unfold hasChildOfLayer. rewrite !existsb_false. intros Hl Hc H x Hx.
  unfold ofLayer. rewrite Hl. apply H. by apply Hc.
Qed.

Lemma commandInv_transfer w w' :
  commandInv w ->
  outstanding w' = outstanding w ->
  (forall m, layer (store w' m) = layer (store w m)) ->
  (forall c, c ∈ outstanding w ->
     pendingSubdivision (store w' (requester c))
       = pendingSubdivision (store w (requester c))
     /\ children (store w' (requester c)) ⊆ children (store w (requester c))) ->
  commandInv w'.
Proof.
  intros [Hnd Hcmd] Hout Hl Hreq. split; rewrite Hout; [done |].
  intros c Hc. destruct (Hcmd c Hc) as [Hp Hch].
  destruct (Hreq c Hc) as [Hp' Hsub]. split; [congruence |].
  by apply (hasChildOfLayer_mono _ (store w)).
Qed.

Lemma preserves_bind {A B} (P : @World Extent -> Prop) (m : @M Extent A) (k : A -> @M Extent B) :
  preserves P m -> (forall a, preserves P (k a)) -> preserves P (bind m k).
Proof.
  intros Hm Hk w Hw. unfold bind. specialize (Hm w Hw).
  destruct (m w) as [w' [a | e]]; [by apply Hk | done].
Qed.

Lemma preserves_pure {A} (P : @World Extent -> Prop) (c : Completion A) :
  preserves P (lift c).
Proof. by intros w Hw. Qed.

Lemma preserves_read (P : @World Extent -> Prop) node : preserves P (read node).
Proof. by intros w Hw. Qed.

Lemma preserves_getStore (P : @World Extent -> Prop) : preserves P getStore.
Proof. by intros w Hw. Qed.

Lemma commandInv_call (c : @Call Extent) : preserves commandInv (call c).
Proof. intros w Hw. by apply (commandInv_transfer w). Qed.

Lemma settling_call node (c : @Call Extent) :
  preserves (settling node) (call c).
Proof. intros w [Hw Hn]. split; [by apply (commandInv_transfer w) | done]. Qed.

(** An assignment that leaves the layer, pendingSubdivision and the children
    of the object alone, or only removes children. *)
Lemma commandInv_assign m (f : @TileMesh Extent -> @TileMesh Extent) :
  (forall n, layer (f n) = layer n
     /\ pendingSubdivision (f n) = pendingSubdivision n
     /\ children (f n) ⊆ children n) ->
  preserves commandInv (assign m f).
Proof.
  intros Hf w Hw. apply (commandInv_transfer w); [done | done | |]; simpl.
  - intros k. destruct (decide (k = m)) as [-> | Hk];
      [rewrite upd_same; apply Hf | by rewrite upd_other].
  - intros c _. destruct (decide (requester c = m)) as [-> | Hk];
      [rewrite upd_same; split; apply Hf | by rewrite upd_other].
Qed.

(** While the command of [node] is settled, [node] itself may be written
    freely, as long as it stays in its layer. *)
Lemma settling_assign node m (f : @TileMesh Extent -> @TileMesh Extent) :
  (forall n, layer (f n) = layer n) ->
  (m = node \/
   forall n, pendingSubdivision (f n) = pendingSubdivision n
     /\ children (f n) ⊆ children n) ->
  preserves (settling node) (assign m f).
Proof.
  intros Hl Hf w [Hw Hn]. split; [| done].
  apply (commandInv_transfer w); [done | done | |]; simpl.
  - intros k. destruct (decide (k = m)) as [-> | Hk];
      [rewrite upd_same; apply Hl | by rewrite upd_other].
  - intros c Hc. destruct (decide (requester c = m)) as [Heq | Hk];
      [| by rewrite upd_other].
    rewrite Heq, upd_same. destruct Hf as [-> | Hf]; [| apply Hf].
    by destruct (Hn c Hc).
Qed.

Lemma settling_add node child : preserves (@settling Extent node) (add node child).
Proof.
  unfold add. destruct (decide (child = node)); [by intros w Hw |].
  apply preserves_bind; [apply preserves_read | intros c].
  apply preserves_bind; [| intros _].
  { destruct (parent c) as [p|]; [| by intros w Hw].
    apply settling_assign; [done |]. right. intros k. split; [done |].
    simpl. intros x Hx. apply list_elem_of_In, filter_In in Hx as [Hx _].
    by apply list_elem_of_In. }
  apply preserves_bind; [| intros _].
  { apply settling_assign; [done |]. by right. }
  apply settling_assign; [done |]. by left.
Qed.

Lemma settling_onFulfilled node (newChildren : list NodeId) :
  preserves (@settling Extent node) (onFulfilled node newChildren).
Proof.
  unfold onFulfilled. apply preserves_bind; [| intros _].
  { induction newChildren as [|child l IH]; [by intros w Hw |]. simpl.
    apply preserves_bind; [| by intros _].
    apply preserves_bind; [apply settling_add | intros _; apply settling_call]. }
  apply preserves_bind; [| intros _; apply settling_call].
  apply settling_assign; [done |]. by left.
Qed.

Lemma settling_onRejected node err :
  preserves (@settling Extent node) (onRejected node err).
Proof.
  unfold onRejected. apply preserves_bind; [| intros _].
  - apply settling_assign; [done |]. by left.
  - destruct (negb (isCancelled err)); by intros w Hw.
Qed.

Lemma preserves_ret {A} (P : @World Extent -> Prop) (a : A) :
  preserves P (ret a).
Proof. by intros w Hw. Qed.

Lemma preserves_throw {A} (P : @World Extent -> Prop) (e : Exn) :
  preserves P (throw (A:=A) e).
Proof. by intros w Hw. Qed.

Lemma commandInv_removal (f : @Store Extent -> @Store Extent * option (list NodeId))
    (c : @Call Extent) :
  removalFrame f ->
  preserves commandInv
    (fun w => (set_store (f (store w)).1 (log c w), Normal (f (store w)).2)).
Proof.
  intros Hf w Hw. apply (commandInv_transfer w); [done | done | |]; simpl.
  - intros m. apply Hf.
  - intros k _. split; apply Hf.
Qed.

Lemma commandInv_subdivideNode this context node :
  preserves commandInv (subdivideNode this context node).
Proof.
  intros w [Hnd Hcmd]. run.
  destruct (pendingSubdivision (store w node)) eqn:Hpend; [done |].
  destruct (hasChildOfLayer this (store w) node) eqn:Hch; [done |].
  cbn. split; cbn.
  - rewrite fmap_app. apply NoDup_app. split; [done |]. split.
    + intros x Hx Hnode. apply list_elem_of_singleton in Hnode.
      cbn in Hnode. subst x.
      apply list_elem_of_fmap in Hx as [c [Heq Hc]].
      destruct (Hcmd c Hc) as [Hp _]. congruence.
    + apply NoDup_singleton.
  - intros c Hc. apply elem_of_app in Hc as [Hc | Hc].
    + destruct (Hcmd c Hc) as [Hp Hno].
      assert (requester c <> node) by congruence.
      rewrite upd_other by done. split; [done |].
      by rewrite hasChildOfLayer_upd.
    + apply list_elem_of_singleton in Hc as ->. cbn.
      rewrite upd_same. split; [done |]. by rewrite hasChildOfLayer_upd.
Qed.

Ltac pres :=
  repeat first
    [ apply preserves_read | apply preserves_getStore | apply preserves_ret
    | apply preserves_throw | apply preserves_pure | apply commandInv_call
    | apply commandInv_subdivideNode
    | apply commandInv_assign; done
    | apply preserves_bind; [| intros ?]
    | match goal with
      | |- preserves _ (if ?b then _ else _) => destruct b
      | |- preserves _ (match ?x with _ => _ end) => destruct x
      end ].

Lemma commandInv_update this context node :
  removalOnly -> preserves commandInv (update this context node).
Proof.
  intros Hrem. destruct (Hrem this node) as [Hrc Hrcc].
  pose proof (commandInv_removal _ (CallRemoveChildren node) Hrc) as H1.
  pose proof (commandInv_removal _ (CallRemoveChildrenAndCleanup node) Hrcc)
    as H2.
  unfold update, callCulling, callSubdivision.
  fold (callRemoveChildren this node) in H1.
  fold (callRemoveChildrenAndCleanup this node) in H2.
  pres; try done.
Qed.

Lemma settling_start w c (before after : list Command) :
  commandInv w ->
  outstanding w = before ++ c :: after ->
  settling (requester c) (set_outstanding (before ++ after) w).
Proof.
  intros [Hnd Hcmd] Hout. rewrite Hout in Hnd, Hcmd.
  rewrite fmap_app, fmap_cons in Hnd.
  apply NoDup_app in Hnd as (Hb & Hba & Hca).
  apply NoDup_cons in Hca as [Hc Ha].
  split; [split |]; cbn.
  - rewrite fmap_app. apply NoDup_app. split; [done |]. split; [| done].
    intros x Hx Hx'. apply (Hba x Hx). by right.
  - intros c' Hc'. apply Hcmd. apply elem_of_app in Hc' as [Hc' | Hc'];
      apply elem_of_app; [by left | right; by right].
  - intros c' Hc' Heq. apply elem_of_app in Hc' as [Hc' | Hc'].
    + apply (Hba (requester c')); [by apply list_elem_of_fmap_2 |].
      rewrite Heq. by left.
    + apply Hc. rewrite <- Heq. by apply list_elem_of_fmap_2.
Qed.

Lemma step_commandInv w w' :
  removalOnly -> step w w' -> commandInv w -> commandInv w'.
Proof.
  intros Hrem Hstep Hw. destruct Hstep as [this context node w | this context node w
    | c newChildren before after w Hout | c err before after w Hout].
  - by apply commandInv_subdivideNode.
  - by apply commandInv_update.
  - by apply settling_onFulfilled, settling_start.
  - by apply settling_onRejected, settling_start.
Qed.

Lemma reachable_commandInv w0 w :
  removalOnly -> outstanding w0 = [] -> rtc step w0 w -> commandInv w.
Proof.
  intros Hrem H0 Hrtc. assert (Hinv : commandInv w0).
  { split; rewrite H0; [apply NoDup_nil_2 |].
    intros c Hc. by apply elem_of_nil in Hc. }
  clear H0. induction Hrtc as [|w1 w2 w3 Hstep _ IH]; [done |].
  apply IH. by apply (step_commandInv w1).
Qed.

Lemma commandsOf_at_most_one w node :
  commandInv w ->
  (length (commandsOf node w) <= 1)%nat
  /\ (commandsOf node w <> [] -> pendingSubdivision (store w node) = true).
Proof.
  intros [Hnd Hcmd]. unfold commandsOf. split.
  - clear Hcmd. induction (outstanding w) as [|c l IH]; [simpl; lia |].
    rewrite fmap_cons in Hnd. apply NoDup_cons in Hnd as [Hc Hl].
    simpl. destruct (Nat.eqb (requester c) node) eqn:Heq; [| by apply IH].
    apply Nat.eqb_eq in Heq. simpl.
    replace (List.filter (fun c => Nat.eqb (requester c) node) l) with
      (@nil (@Command Extent)); [simpl; lia |].
    symmetry. apply filter_all_false. intros c' Hc'.
    apply Nat.eqb_neq. intros Heq'. apply Hc. rewrite Heq, <- Heq'.
    by apply list_elem_of_fmap_2.
  - intros Hne.
    destruct (List.filter (fun c => Nat.eqb (requester c) node) (outstanding w))
      as [|c l] eqn:Hf; [done |].
    assert (Hin : In c (List.filter (fun c => Nat.eqb (requester c) node)
                          (outstanding w))) by (rewrite Hf; by left).
    apply filter_In in Hin as [Hin Heq]. apply Nat.eqb_eq in Heq.
    apply list_elem_of_In in Hin. destruct (Hcmd c Hin) as [Hp _]. congruence.
Qed.

(** C1: subdivideNode changes nothing (no command, no flag, no call, the
    same world) when the node's pendingSubdivision is already true or the
    node already has a child of this layer; and in every world reached from
    one without outstanding command by calls of subdivideNode and update and
    by settlements of commands, a node has at most one outstanding command,
    and has one only while its pendingSubdivision is true. *)
Theorem one_command_per_node :
  (forall this context node w,
     pendingSubdivision (store w node) = true
     \/ hasChildOfLayer this (store w) node = true ->
     subdivideNode this context node w = (w, Normal tt))
  /\ (removalOnly ->
      forall w0 w, outstanding w0 = [] -> rtc step w0 w ->
      forall node,
        (length (commandsOf node w) <= 1)%nat
        /\ (commandsOf node w <> [] ->
            pendingSubdivision (store w node) = true)).
Proof.
  split.
  - intros this context node w H. run.
    destruct H as [-> | ->]; [done | by rewrite andb_false_r].
  - intros Hrem w0 w H0 Hrtc node.
    apply commandsOf_at_most_one. by apply (reachable_commandInv w0).
Qed.

(** C2: when the command of a node is rejected, in any world reached as in
    C1, the callback clears the node's pendingSubdivision; it completes
    normally when the rejection is a CancelledCommandException and throws
    [Error(err)] otherwise; in both cases the node has no child of the layer
    of the command, its children are those it had, and nothing else
    changes. *)
Theorem rejection_clears_pending w0 w c (before after : list Command) err :
  removalOnly ->
  outstanding w0 = [] -> rtc step w0 w ->
  outstanding w = before ++ c :: after ->
  (onRejected (requester c) err (set_outstanding (before ++ after) w)).2
    = (if isCancelled err then Normal tt else Throw (Error err))
  /\ pendingSubdivision
       (store (onRejected (requester c) err
                 (set_outstanding (before ++ after) w)).1 (requester c))
     = false
  /\ hasChildOfLayer (c_layer c)
       (store (onRejected (requester c) err
                 (set_outstanding (before ++ after) w)).1) (requester c)
     = false
  /\ children
       (store (onRejected (requester c) err
                 (set_outstanding (before ++ after) w)).1 (requester c))
     = children (store w (requester c))
  /\ (forall m, m <> requester c ->
        store (onRejected (requester c) err
                 (set_outstanding (before ++ after) w)).1 m = store w m)
  /\ calls (onRejected (requester c) err
              (set_outstanding (before ++ after) w)).1 = calls w
  /\ outstanding (onRejected (requester c) err
                    (set_outstanding (before ++ after) w)).1
     = before ++ after.
Proof.
  intros Hrem H0 Hrtc Hout.
  destruct (reachable_commandInv w0 w Hrem H0 Hrtc) as [_ Hcmd].
  destruct (Hcmd c) as [_ Hno]; [rewrite Hout; apply elem_of_app; right; by left |].
  unfold onRejected, bind, assign, ret, throw.
  destruct err as [|msg]; cbn; rewrite ?upd_same;
    (repeat split; [by rewrite hasChildOfLayer_upd | by intros m Hm; rewrite upd_other]).
Qed.

End Properties.

(** ** The properties on the concrete scene *)

(** The gate on a tile whose load of the only elevation layer has failed. *)
Lemma errored_layers_never_block_witness :
  hasEnoughTexturesToSubdivide
    (dropErrored Demo.failedTile Demo.contextRelief) Demo.failedTile
    = Normal true
  /\ hasEnoughTexturesToSubdivide
       (dropErrored Demo.failedTile Demo.contextRelief) Demo.failedTile
     = hasEnoughTexturesToSubdivide Demo.contextRelief Demo.failedTile
  /\ hasEnoughTexturesToSubdivide Demo.contextRelief Demo.failedTile
     <> Normal false.
Proof.
  destruct (errored_layers_never_block Demo.contextRelief Demo.failedTile)
    as (H1 & H2 & H3).
  split; [apply H1; reflexivity |]. split; [apply H2; discriminate |].
  apply H3. intros l Hl. apply list_elem_of_singleton in Hl as ->.
  reflexivity.
Defined.

(** In the chain the common ancestor is the minimum, a total meet. *)
Lemma chain_partial_meet (s : @Store unit) :
  PartialMeet (findCommonAncestor s).
Proof.
  split; simpl.
  - intros a b. by rewrite Nat.min_comm.
  - intros a b c. by rewrite Nat.min_assoc.
  - intros a. by rewrite Nat.min_id.
Qed.

(** The camera between two tiles of the chain. *)
Lemma preUpdate_camera_witness :
  (preUpdate Demo.globe Demo.withCamera Demo.context0
     [Some 2%nat; Some 9%nat; Some 1%nat]).2
  = level0Nodes Demo.globe.
Proof.
  apply preUpdate_camera. exists 9%nat. split; [| reflexivity].
  apply list_elem_of_further, list_elem_of_here.
Defined.

(** C7, at the sources {1, 2} of the chain, iterated as 1, 2: both are nodes
    of the layer, the ancestor resolved from them is tile 1, which has no
    material, and preUpdate returns tile 2 alone instead of level0Nodes: the
    running ancestor is unset when tile 1 is met and the loop starts again
    from tile 2. *)
Theorem preUpdate_restarts_after_unmaterialized :
  ofLayer Demo.globe (Demo.chainTile 1) = true
  /\ ofLayer Demo.globe (Demo.chainTile 2) = true
  /\ specResolveAncestor Demo.chainTile [1%nat; 2%nat] = Some 1%nat
  /\ material (Demo.chainTile 1) = None
  /\ (preUpdate Demo.globe Demo.chainTile Demo.context0
        [Some 1%nat; Some 2%nat]).2 = [2%nat]
  /\ level0Nodes Demo.globe = [0%nat].
Proof. repeat split. Qed.

(** C8, at the sources {1, 2} of the chain, where the common ancestor is a
    total commutative, associative, idempotent meet and both sources are
    nodes of the layer: iterated as 1, 2 preUpdate returns tile 2 alone,
    iterated as 2, 1 it returns level0Nodes, so the result depends on the
    iteration order.  The two orders part where tile 1, which has no
    material, becomes the running ancestor before the last source: the
    ancestor is unset and the loop goes on from the next source instead of
    falling back to level0Nodes, which both orders would then return. *)
Theorem preUpdate_order_matters :
  PartialMeet (findCommonAncestor Demo.chainTile)
  /\ [Some 1%nat; Some 2%nat] ≡ₚ [Some 2%nat; Some 1%nat]
  /\ ofLayer Demo.globe (Demo.chainTile 1) = true
  /\ ofLayer Demo.globe (Demo.chainTile 2) = true
  /\ (preUpdate Demo.globe Demo.chainTile Demo.context0
        [Some 1%nat; Some 2%nat]).2 = [2%nat]
  /\ (preUpdate Demo.globe Demo.chainTile Demo.context0
        [Some 2%nat; Some 1%nat]).2 = [0%nat]
  /\ (preUpdate Demo.globe Demo.chainTile Demo.context0
        [Some 1%nat; Some 2%nat]).2
     <> (preUpdate Demo.globe Demo.chainTile Demo.context0
           [Some 2%nat; Some 1%nat]).2.
Proof.
  split; [apply chain_partial_meet |].
  split; [apply perm_swap |]. repeat split. discriminate.
Qed.

(** With a material on every tile the two orders agree. *)
Lemma preUpdate_order_independent_witness :
  preUpdate Demo.globe Demo.solidTile Demo.context0
    [Some 1%nat; Some 2%nat]
  = preUpdate Demo.globe Demo.solidTile Demo.context0
      [Some 2%nat; Some 1%nat].
Proof.
  apply preUpdate_order_independent.
  - apply chain_partial_meet.
  - intros x _ _. unfold materialized. simpl. discriminate.
  - intros a b c _ _ _. unfold materialized. simpl. discriminate.
  - apply perm_swap.
Defined.

(** Dropping the children of a layer is a removal in the sense above. *)
Lemma chain_removalOnly : removalOnly (collab := Demo.chainCollab).
Proof.
  assert (H : forall this node, removalFrame (Demo.dropChildren this node)).
  { intros this node s m. unfold Demo.dropChildren. cbn [fst].
    destruct (decide (m = node)) as [-> | Hm].
    - rewrite !upd_same. repeat split; try done. cbn.
      intros x Hx. apply list_elem_of_In, filter_In in Hx as [Hx _].
      by apply list_elem_of_In.
    - rewrite !upd_other by done. done. }
  intros this node. split; apply H.
Qed.

(** Tile 0 of the chain already has a child; tile 3 of the leaves gets its
    first command. *)
Lemma one_command_per_node_witness :
  subdivideNode Demo.globe Demo.context0 0%nat Demo.chainWorld
    = (Demo.chainWorld, Normal tt)
  /\ (length (commandsOf 3%nat
        (subdivideNode Demo.globe Demo.context0 3%nat Demo.leafWorld).1) <= 1)%nat.
Proof.
  destruct (one_command_per_node (collab := Demo.chainCollab)) as [H1 H2].
  split.
  - apply H1. right. reflexivity.
  - apply (H2 chain_removalOnly Demo.leafWorld); [reflexivity |].
    apply rtc_once, step_subdivideNode.
Defined.

(** The command of tile 3 fails for a reason other than a cancellation. *)
Lemma rejection_clears_pending_witness :
  pendingSubdivision
    (store (onRejected 3%nat (OtherFailure "builder failed")
              (set_outstanding []
                 (subdivideNode Demo.globe Demo.context0 3%nat
                    Demo.leafWorld).1)).1 3%nat) = false.
Proof.
  apply (rejection_clears_pending (collab := Demo.chainCollab)
           Demo.leafWorld
           (subdivideNode Demo.globe Demo.context0 3%nat Demo.leafWorld).1
           Demo.command3 [] [] (OtherFailure "builder failed")
           chain_removalOnly eq_refl
           (rtc_once _ _ (step_subdivideNode _ _ _ _)) eq_refl).
Defined.

(** Tile 1 while its parent, tile 0, is being subdivided. *)
Lemma update_parent_subdividing_witness :
  visible (store (update Demo.globe Demo.context0 1%nat Demo.rootBusyWorld).1
             1%nat) = false
  /\ displayed
       (store (update Demo.globe Demo.context0 1%nat Demo.rootBusyWorld).1
          1%nat) = false.
Proof.
  destruct (update_parent_subdividing Demo.globe Demo.context0 1%nat 0%nat
              Demo.rootBusyWorld eq_refl eq_refl) as (_ & Hv & Hd & _).
  exact (conj Hv Hd).
Defined.

(** A leaf whose elevation texture is missing, and a leaf whose subdivision
    is already pending. *)
Lemma gate_blocks_new_subdivision_witness :
  (CallSubdivideNode 3%nat
     ∉ newCalls Demo.leafWorld
         (update Demo.globe Demo.contextRelief 3%nat Demo.leafWorld).1)
  /\ (CallSubdivideNode 3%nat
        ∈ newCalls Demo.busyWorld
            (update Demo.globe Demo.context0 3%nat Demo.busyWorld).1).
Proof.
  split.
  - apply (proj1 (gate_blocks_new_subdivision Demo.globe Demo.contextRelief
                    3%nat Demo.leafWorld)); reflexivity.
  - apply (proj2 (gate_blocks_new_subdivision Demo.globe Demo.context0
                    3%nat Demo.busyWorld) 0%nat); reflexivity.
Defined.

(** Tile 1 of the chain, which has its child, and a leaf, which gets its
    command. *)
Lemma displayed_follows_pending_witness :
  displayed (store (update Demo.globe Demo.context0 1%nat Demo.solidWorld).1
               1%nat) = false
  /\ hasChildOfLayer Demo.globe
       (store (update Demo.globe Demo.context0 3%nat Demo.leafWorld).1) 3%nat
     = false.
Proof.
  split.
  - destruct (displayed_follows_pending Demo.globe Demo.context0 1%nat
                Demo.solidWorld) as (_ & H & _).
    + vm_compute. do 2 apply list_elem_of_further. apply list_elem_of_here.
    + apply H; reflexivity.
  - destruct (displayed_follows_pending Demo.globe Demo.context0 3%nat
                Demo.leafWorld) as (_ & _ & H).
    + vm_compute. do 2 apply list_elem_of_further. apply list_elem_of_here.
    + apply H; reflexivity.
Defined.

(** * Further properties *)

(** ** attach and detach *)

Lemma filter_id_all (l : Layer) (ls : list Layer) :
  (forall a, a ∈ ls -> layer_id a <> layer_id l) ->
  List.filter (fun a => negb (String.eqb (layer_id a) (layer_id l))) ls = ls.
Proof.
  induction ls as [|x ls IH]; [done |]. intros H. simpl.
  assert (Hx : String.eqb (layer_id x) (layer_id l) = false).
  { apply String.eqb_neq, H. by left. }
  rewrite Hx. simpl. f_equal. apply IH. intros a Ha. apply H. by right.
Qed.

(** X1: attaching a layer whose id no attached layer has, then detaching it,
    gives back the geometry layer as it was, and detach answers true. *)
Theorem attach_detach_roundtrip (this g : GeometryLayer) (l : Layer) :
  (forall a, a ∈ attachedLayers this -> layer_id a <> layer_id l) ->
  attach this l = Some g ->
  detach g l = (this, true).
Proof.
  intros Hfresh Hatt. unfold attach in Hatt.
  destruct (negb (layer_update l)); [done |]. injection Hatt as <-.
  unfold detach. cbn [attachedLayers set_attachedLayers].
  rewrite List.filter_app, (filter_id_all l _ Hfresh). simpl.
  rewrite String.eqb_refl. simpl. rewrite app_nil_r.
  destruct this as [r i ls]. cbn. f_equal.
  apply Nat.ltb_lt. rewrite length_app. simpl. lia.
Qed.

(** X2: a second detach of the same layer finds nothing left: it changes
    nothing and answers false. *)
Theorem detach_twice (this : GeometryLayer) (l : Layer) :
  detach (detach this l).1 l = ((detach this l).1, false).
Proof.
  unfold detach. cbn [fst attachedLayers set_attachedLayers ref id].
  rewrite filter_id_all.
  - f_equal. apply Nat.ltb_irrefl.
  - intros a Ha. apply list_elem_of_In, filter_In in Ha as [_ Ha].
    by apply negb_true_iff, String.eqb_neq in Ha.
Qed.

(** X3: attach and detach of layers with different ids commute, and the
    attach does not change what the detach answers. *)
Theorem attach_detach_commute (this g : GeometryLayer) (l l' : Layer) :
  layer_id l <> layer_id l' ->
  attach this l = Some g ->
  attach (detach this l').1 l = Some (detach g l').1
  /\ (detach g l').2 = (detach this l').2.
Proof.
  intros Hne Hatt. unfold attach in *.
  destruct (negb (layer_update l)); [done |]. injection Hatt as <-.
  unfold detach. cbn [fst snd attachedLayers set_attachedLayers ref id].
  rewrite List.filter_app. simpl.
  apply String.eqb_neq in Hne. rewrite Hne. simpl. split; [done |].
  rewrite !length_app. simpl.
  destruct (Nat.ltb _ (length (attachedLayers this))) eqn:E.
  - apply Nat.ltb_lt in E. apply Nat.ltb_lt. lia.
  - apply Nat.ltb_ge in E. apply Nat.ltb_ge. lia.
Qed.

(** ** changeOpacity *)

Section Opacity.

Context {Number : Type} (lessThanOne : Number -> bool).

(** X4: the last opacity wins: changing the opacity of an object twice
    leaves its material as the second change alone does; in particular
    changeOpacity is idempotent. *)
Theorem changeOpacity_last_wins (o1 o2 : Number)
    (material : option (@FadingMaterial Number)) :
  changeOpacity lessThanOne o2 (changeOpacity lessThanOne o1 material)
  = changeOpacity lessThanOne o2 material.
Proof.
  destruct material as [[op tr [[uo]|]]|]; [| | done];
    destruct op; try destruct uo; reflexivity.
Qed.

(** X5: changeOpacity neither creates nor drops an opacity slot; after it
    every slot the material has (its own opacity, the opacity uniform) holds
    the opacity of the layer, zero included; [transparent] tells whether that
    opacity is below 1 when there is a slot, and is left alone when there is
    none; an object without material stays without. *)
Theorem changeOpacity_slots (o : Number) (m : @FadingMaterial Number) :
  exists m', changeOpacity lessThanOne o (Some m) = Some m'
  /\ fm_opacity m' = (fun _ => o) <$> fm_opacity m
  /\ fm_uniforms m'
     = (fun u => {| u_opacity := (fun _ => o) <$> u_opacity u |})
         <$> fm_uniforms m
  /\ fm_transparent m'
     = (if bool_decide (fm_opacity m = None
                        /\ (fm_uniforms m ≫= u_opacity) = None)
        then fm_transparent m else lessThanOne o)
  /\ changeOpacity lessThanOne o None = None.
Proof.
  destruct m as [op tr [[uo]|]]; destruct op; try destruct uo;
    eexists; (split; [reflexivity |]); cbn;
    repeat split; try done;
    solve [ rewrite bool_decide_eq_false_2; [done | intros [? ?]; done]
          | rewrite bool_decide_eq_true_2; done ].
Qed.

End Opacity.

Section MoreProperties.

Context {Extent Camera : Type} {collab : @Collaborators Extent Camera}.

Implicit Types (w : @World Extent) (s : @Store Extent) (n : @TileMesh Extent).
Implicit Types (node p : NodeId) (this : TiledGeometryLayer).
Implicit Types (context : @Context Extent Camera).

(** ** The constructor of TiledGeometryLayer *)

(** X6: the constructor checks object3d first, then schemeTile, then the
    builder, and fails on the first that is missing; with all three it
    succeeds, whatever the length of schemeTile (an empty array included),
    with no attached layer, an empty level0Nodes and one conversion, without
    requester, for each root extent in order. *)
Theorem newTiledGeometryLayer_checks {Builder : Type} (r : LayerRef)
    (i : string) (object3d : option Object3D)
    (schemeTile : option (list Extent)) (builder : option Builder) :
  let valid :=
    match object3d with Some o => isObject3D o | None => false end in
  match newTiledGeometryLayer r i object3d schemeTile builder with
  | inl InvalidObject3D => valid = false
  | inl (MissingSchemeTile j) => valid = true /\ schemeTile = None /\ j = i
  | inl (MissingBuilder j) =>
      valid = true /\ is_Some schemeTile /\ builder = None /\ j = i
  | inr (this, o, conversions) =>
      valid = true /\ is_Some builder
      /\ level0Nodes this = [] /\ attachedLayers (base this) = []
      /\ id (base this) = i /\ ref (base this) = r
      /\ (exists roots, schemeTile = Some roots
            /\ conversions.*2 = roots
            /\ Forall (fun c => c.1 = None) conversions)
      /\ (exists o0, object3d = Some o0 /\ o_type o = o_type o0
            /\ o_name o = (if String.eqb (o_type o0) "Group"
                              && String.eqb (o_name o0) ""
                           then i else o_name o0))
  end.
Proof.
  unfold newTiledGeometryLayer, newGeometryLayer.
  destruct object3d as [o|]; [| done]. cbn.
  destruct (isObject3D o) eqn:Ho; [| done]. cbn.
  destruct schemeTile as [roots|]; [| done].
  destruct builder as [b|]; [| by eauto]. cbn.
  repeat split; eauto.
  - exists roots. split; [done |]. split.
    + induction roots as [|x l IH]; [done |]. cbn. by rewrite IH.
    + induction roots as [|x l IH]; constructor; done.
  - exists o. destruct (String.eqb (o_type o) "Group" && String.eqb (o_name o) "");
      done.
Qed.

(** ** The readiness gate, in closed form *)

Lemma elevationLoop_material_some n m (es : list DataLayer) :
  material n = Some m ->
  elevationLoop n es
  = Normal (negb (existsb (fun e =>
      elevationApplies n e && negb (isElevationLayerLoaded m)
      && negb (layerInError n (l_id e))) es)).
Proof.
  intros Hm. induction es as [|e es IH]; [done |]. simpl.
  unfold elevationApplies at 1. rewrite Hm, IH.
  destruct (negb (l_frozen e) && l_ready e && _); [| done].
  destruct (isElevationLayerLoaded m); [done |]. cbn.
  by destruct (layerInError n (l_id e)).
Qed.

Lemma colorLoop_material_some n m (cs : list DataLayer) :
  material n = Some m ->
  colorLoop n cs
  = Normal (negb (existsb (fun c =>
      colorApplies n c && negb (isColorLayerLoaded m c)) cs)).
Proof.
  intros Hm. induction cs as [|c cs IH]; [done |]. simpl.
  unfold colorApplies at 1. rewrite Hm, IH.
  destruct (l_frozen c || negb (l_visible c) || negb (l_ready c)); [done |].
  destruct (layerInError n (l_id c)); [done |]. cbn.
  destruct (extentsInsideLimit _ _); [| done]. cbn.
  by destruct (isColorLayerLoaded m c).
Qed.

Lemma elevationLoop_material_none n (es : list DataLayer) :
  material n = None ->
  elevationLoop n es
  = if existsb (elevationApplies n) es then Throw TypeError else Normal true.
Proof.
  intros Hm. induction es as [|e es IH]; [done |]. simpl.
  unfold elevationApplies at 1. rewrite Hm, IH.
  by destruct (negb (l_frozen e) && l_ready e && _).
Qed.

Lemma colorLoop_material_none n (cs : list DataLayer) :
  material n = None ->
  colorLoop n cs
  = if existsb (colorApplies n) cs then Throw TypeError else Normal true.
Proof.
  intros Hm. induction cs as [|c cs IH]; [done |]. simpl.
  unfold colorApplies at 1. rewrite Hm, IH.
  destruct (l_frozen c || negb (l_visible c) || negb (l_ready c)); [done |].
  destruct (layerInError n (l_id c)); [done |]. cbn.
  by destruct (extentsInsideLimit _ _).
Qed.

Lemma existsb_elem_of {A} (f : A -> bool) (l : list A) :
  existsb f l = true <-> exists x, x ∈ l /\ f x = true.
Proof.
  rewrite existsb_exists. split; intros (x & Hx & Hf); exists x;
    (split; [by apply list_elem_of_In | done]).
Qed.

(** X7: on a node that has a material the gate never throws, and it returns
    false exactly when the elevation texture of the node is not loaded while
    some elevation layer that is not frozen, is ready, covers the node and
    is not in error on it is in the context, or when some color layer that is
    not frozen, is visible, ready, not in error on the node and covers it
    has its texture not loaded. *)
Theorem hasEnoughTextures_characterized context n m :
  material n = Some m ->
  exists b, hasEnoughTexturesToSubdivide context n = Normal b
  /\ (b = false <->
      (isElevationLayerLoaded m = false
       /\ exists e, e ∈ elevationLayers context
            /\ elevationApplies n e = true
            /\ layerInError n (l_id e) = false)
      \/ (exists c, c ∈ colorLayers context
            /\ colorApplies n c = true
            /\ isColorLayerLoaded m c = false)).
Proof.
  intros Hm. unfold hasEnoughTexturesToSubdivide.
  rewrite (elevationLoop_material_some n m), (colorLoop_material_some n m)
    by done.
  destruct (existsb _ (elevationLayers context)) eqn:Ee; cbn.
  - exists false. split; [done |]. split; [| done]. intros _. left.
    apply existsb_elem_of in Ee as (e & He & Hb).
    apply andb_true_iff in Hb as [Hb Herr].
    apply andb_true_iff in Hb as [Hap Hld].
    apply negb_true_iff in Herr, Hld. eauto 6.
  - eexists. split; [done |]. rewrite negb_false_iff, existsb_elem_of.
    split.
    + intros (c & Hc & Hb). right. apply andb_true_iff in Hb as [Hap Hld].
      apply negb_true_iff in Hld. eauto.
    + intros [[Hld (e & He & Hap & Herr)] | (c & Hc & Hap & Hld)].
      * assert (Hex : existsb (fun e => elevationApplies n e
            && negb (isElevationLayerLoaded m)
            && negb (layerInError n (l_id e))) (elevationLayers context)
          = true); [| congruence].
        apply existsb_elem_of. exists e. split; [done |].
        by rewrite Hap, Hld, Herr.
      * exists c. split; [done |]. by rewrite Hap, Hld.
Qed.

(** X8: on a node without material the gate never returns false: it returns
    true when no elevation layer and no color layer reaches the test of its
    texture, and throws a TypeError as soon as one does (an elevation layer
    even when its status on the node is in error). *)
Theorem hasEnoughTextures_without_material context n :
  material n = None ->
  hasEnoughTexturesToSubdivide context n
  = if existsb (elevationApplies n) (elevationLayers context)
       || existsb (colorApplies n) (colorLayers context)
    then Throw TypeError else Normal true.
Proof.
  intros Hm. unfold hasEnoughTexturesToSubdivide.
  rewrite elevationLoop_material_none, colorLoop_material_none by done.
  by destruct (existsb _ (elevationLayers context)).
Qed.

Lemma existsb_Permutation {A} (f : A -> bool) (l l' : list A) :
  l ≡ₚ l' -> existsb f l = existsb f l'.
Proof.
  intros H. destruct (existsb f l) eqn:E, (existsb f l') eqn:E'; try done.
  - apply existsb_elem_of in E as (x & Hx & Hf). rewrite H in Hx.
    assert (existsb f l' = true) by (apply existsb_elem_of; eauto).
    congruence.
  - apply existsb_elem_of in E' as (x & Hx & Hf). rewrite <- H in Hx.
    assert (existsb f l = true) by (apply existsb_elem_of; eauto).
    congruence.
Qed.

(** X9: the gate does not depend on the order of the layers in the context,
    whether the node has a material or not. *)
Theorem hasEnoughTextures_order context context' n :
  elevationLayers context ≡ₚ elevationLayers context' ->
  colorLayers context ≡ₚ colorLayers context' ->
  hasEnoughTexturesToSubdivide context n
  = hasEnoughTexturesToSubdivide context' n.
Proof.
  intros He Hc. unfold hasEnoughTexturesToSubdivide.
  destruct (material n) as [m|] eqn:Hm.
  - rewrite !(elevationLoop_material_some n m),
      !(colorLoop_material_some n m) by done.
    by rewrite (existsb_Permutation _ _ _ He), (existsb_Permutation _ _ _ Hc).
  - rewrite !elevationLoop_material_none, !colorLoop_material_none by done.
    by rewrite (existsb_Permutation _ _ _ He), (existsb_Permutation _ _ _ Hc).
Qed.

(** ** preUpdate, further *)

Lemma sourcesLoop_shape this s ca (l : list NodeId) :
  usable s ca ->
  sourcesLoop this s ca l = level0Nodes this
  \/ exists a, sourcesLoop this s ca l = [a] /\ materialized s a.
Proof.
  revert ca. induction l as [|x l IH]; intros ca Hca; simpl.
  - destruct ca as [a|]; [right | by left]. exists a. split; [done |].
    by apply Hca.
  - destruct (isCamera (s x)); [by left |].
    destruct (ofLayer this (s x)); [| by apply IH].
    destruct (match ca with Some a => findCommonAncestor s x a | None => Some x end)
      as [a|]; [| by left].
    apply IH. intros b Hb. unfold materialized.
    destruct (material (s a)) eqn:Ea; [| done]. injection Hb as <-.
    by rewrite Ea.
Qed.

(** X10: preUpdate returns either level0Nodes or a single node, and a single
    node it returns on its own account always has a material. *)
Theorem preUpdate_shape this s context (sources : list (option NodeId)) :
  (preUpdate this s context sources).2 = level0Nodes this
  \/ exists a, (preUpdate this s context sources).2 = [a]
       /\ materialized s a.
Proof.
  unfold preUpdate.
  destruct (bool_decide (None ∈ sources) || Nat.eqb (length sources) 0);
    [by left |].
  cbn [snd]. apply sourcesLoop_shape. by intros a Ha.
Qed.

Lemma sourcesLoop_relevant this s ca (l : list NodeId) :
  sourcesLoop this s ca
    (List.filter (fun x => isCamera (s x) || ofLayer this (s x)) l)
  = sourcesLoop this s ca l.
Proof.
  revert ca. induction l as [|x l IH]; intros ca; [done |]. simpl.
  destruct (isCamera (s x)) eqn:Hc; simpl.
  - by rewrite Hc.
  - destruct (ofLayer this (s x)) eqn:Ho; simpl; [| by apply IH].
    rewrite Hc, Ho.
    destruct (match ca with Some a => findCommonAncestor s x a | None => Some x end);
      [by apply IH | done].
Qed.

Lemma omap_filter_relevant this s (sources : list (option NodeId)) :
  omap (fun x => x) (List.filter (relevantSource this s) sources)
  = List.filter (fun x => isCamera (s x) || ofLayer this (s x))
      (omap (fun x => x) sources).
Proof.
  induction sources as [|[x|] l IH]; [done | |]; cbn.
  - destruct (isCamera (s x) || ofLayer this (s x)); cbn;
      [f_equal; exact IH | exact IH].
  - exact IH.
Qed.

(** X11: sources that are neither undefined, nor the camera, nor a node of
    this layer play no part: the nodes preUpdate returns are those it
    returns once these sources are taken out of the set; a set of such
    sources only yields level0Nodes. *)
Theorem preUpdate_foreign_sources this s context
    (sources : list (option NodeId)) :
  (preUpdate this s context sources).2
  = (preUpdate this s context
       (List.filter (relevantSource this s) sources)).2
  /\ ((forall o, o ∈ sources -> relevantSource this s o = false) ->
      (preUpdate this s context sources).2 = level0Nodes this).
Proof.
  assert (Hmain : (preUpdate this s context sources).2
    = (preUpdate this s context
         (List.filter (relevantSource this s) sources)).2).
  { unfold preUpdate.
    assert (Hnone : bool_decide (None ∈ sources)
      = bool_decide (None ∈ List.filter (relevantSource this s) sources)).
    { apply bool_decide_ext. rewrite !list_elem_of_In, filter_In.
      split; [by intros H | by intros [H _]]. }
    rewrite <- Hnone.
    destruct (bool_decide (None ∈ sources)) eqn:En; [done |]. cbn [orb].
    destruct (Nat.eqb (length sources) 0) eqn:El.
    { apply Nat.eqb_eq in El. by destruct sources. }
    destruct (Nat.eqb (length (List.filter (relevantSource this s) sources)) 0)
      eqn:El'; cbn [snd].
    - apply Nat.eqb_eq, nil_length_inv in El'.
      rewrite <- sourcesLoop_relevant, <- omap_filter_relevant, El'. done.
    - by rewrite omap_filter_relevant, sourcesLoop_relevant. }
  split; [exact Hmain |]. intros Hall. rewrite Hmain.
  rewrite filter_all_false by done. done.
Qed.

Lemma getLayers_elem_of (v : @View Extent) f (l : DataLayer) :
  l ∈ getLayers v f <-> exists a, (l, a) ∈ view_layers v /\ f l a = true.
Proof.
  unfold getLayers. rewrite list_elem_of_fmap. split.
  - intros ([l' a] & -> & H). apply list_elem_of_In, filter_In in H as [H Hf].
    exists a. split; [by apply list_elem_of_In | done].
  - intros (a & H & Hf). exists (l, a). split; [done |].
    apply list_elem_of_In, filter_In. split; [by apply list_elem_of_In | done].
Qed.

(** X12: when the set of sources is empty or holds undefined, preUpdate
    leaves the context as it is; otherwise it keeps the camera and the view
    and rebuilds the three other fields from the view alone: the color
    layers are exactly the layers of the view of type "color" attached to a
    layer with the id of this one, likewise the elevation layers; running
    preUpdate again on the context it produced gives the same context. *)
Theorem preUpdate_context this s context (sources : list (option NodeId)) :
  (sources = [] \/ None ∈ sources ->
   (preUpdate this s context sources).1 = context)
  /\ (sources <> [] -> None ∉ sources ->
      camera (preUpdate this s context sources).1 = camera context
      /\ view (preUpdate this s context sources).1 = view context
      /\ (forall l, l ∈ colorLayers (preUpdate this s context sources).1
            <-> (l, Some (id (base this))) ∈ view_layers (view context)
                /\ l_type l = "color")
      /\ (forall l, l ∈ elevationLayers (preUpdate this s context sources).1
            <-> (l, Some (id (base this))) ∈ view_layers (view context)
                /\ l_type l = "elevation")
      /\ (preUpdate this s (preUpdate this s context sources).1 sources).1
         = (preUpdate this s context sources).1).
Proof.
  split.
  - intros [-> | Hin]; [done |]. unfold preUpdate.
    by rewrite bool_decide_eq_true_2.
  - intros Hne Hnone. unfold preUpdate.
    rewrite bool_decide_eq_false_2 by done.
    destruct (Nat.eqb (length sources) 0) eqn:El.
    { apply Nat.eqb_eq in El. by destruct sources. }
    assert (Hmem : forall ty l,
      l ∈ getLayers (view context) (fun l a =>
            match a with
            | Some a_id =>
                String.eqb a_id (id (base this)) && String.eqb (l_type l) ty
            | None => false
            end)
      <-> (l, Some (id (base this))) ∈ view_layers (view context)
          /\ l_type l = ty).
    { intros ty l. rewrite getLayers_elem_of. split.
      - intros ([a|] & Hin & Hf); [| done].
        apply andb_true_iff in Hf as [Ha Ht]. apply String.eqb_eq in Ha, Ht.
        by subst.
      - intros [Hin Ht]. eexists. split; [done |].
        cbn. by rewrite String.eqb_refl, Ht, String.eqb_refl. }
    cbn. split; [done |]. split; [done |].
    split; [apply Hmem |]. split; [apply Hmem |]. done.
Qed.

Lemma maxZoom_acc (es : list (@DataLayer Extent)) (acc : Z) :
  let m := fold_left (fun acc e => Z.max (zoom_max (l_source e)) acc) es acc in
  (acc <= m)%Z
  /\ (forall e, e ∈ es -> (zoom_max (l_source e) <= m)%Z)
  /\ (m = acc \/ exists e, e ∈ es /\ zoom_max (l_source e) = m).
Proof.
  revert acc. induction es as [|e es IH]; intros acc; cbn.
  - split; [lia |]. split; [| by left]. intros e He. by apply elem_of_nil in He.
  - destruct (IH (Z.max (zoom_max (l_source e)) acc)) as (H1 & H2 & H3).
    split; [lia |]. split.
    + intros e' He'. apply elem_of_cons in He' as [-> | He']; [lia | auto].
    + destruct H3 as [H3 | (e' & He' & H3)].
      * destruct (Z.max_spec (zoom_max (l_source e)) acc) as [[_ Hm] | [_ Hm]].
        -- left. by rewrite Hm in H3 |- *.
        -- right. exists e. split; [by left |]. by rewrite H3.
      * right. exists e'. split; [by right | done].
Qed.

(** X13: the maxElevationLevel preUpdate computes is Infinity exactly when
    no elevation layer of the refreshed context has a zoom bound above -1
    (none at all included); otherwise it is the largest of their zoom bounds,
    which is above -1 and is the bound of one of them. *)
Theorem preUpdate_maxElevationLevel this s context
    (sources : list (option NodeId)) :
  sources <> [] -> None ∉ sources ->
  match maxElevationLevel (preUpdate this s context sources).1 with
  | Infinity =>
      forall e, e ∈ elevationLayers (preUpdate this s context sources).1 ->
        (zoom_max (l_source e) <= -1)%Z
  | Finite m =>
      (-1 < m)%Z
      /\ (forall e, e ∈ elevationLayers (preUpdate this s context sources).1 ->
            (zoom_max (l_source e) <= m)%Z)
      /\ (exists e, e ∈ elevationLayers (preUpdate this s context sources).1
            /\ zoom_max (l_source e) = m)
  end.
Proof.
  intros Hne Hnone. unfold preUpdate.
  rewrite bool_decide_eq_false_2 by done.
  destruct (Nat.eqb (length sources) 0) eqn:El.
  { apply Nat.eqb_eq in El. by destruct sources. }
  cbn. set (es := getLayers _ _).
  destruct (maxZoom_acc es (-1)) as (H1 & H2 & H3). fold (maxZoom es) in *.
  destruct (Z.eqb (maxZoom es) (-1)) eqn:Em.
  - apply Z.eqb_eq in Em. intros e He. rewrite <- Em. by apply H2.
  - apply Z.eqb_neq in Em. split; [lia |]. split; [done |].
    by destruct H3 as [H3 | H3].
Qed.

Lemma sourcesLoop_resolves this s a (l : list NodeId) :
  (forall x, x ∈ l -> ofLayer this (s x) = true /\ isCamera (s x) = false) ->
  (forall a b c, materialized s a -> materialized s b ->
     findCommonAncestor s a b = Some c -> materialized s c) ->
  (forall x, x ∈ l -> materialized s x) ->
  materialized s a ->
  sourcesLoop this s (Some a) l
  = match specResolveFrom s a l with
    | Some b => [b]
    | None => level0Nodes this
    end.
Proof.
  intros Hl Hclosed Hmat. revert a.
  induction l as [|x l IH]; intros a Ha; [done |]. simpl.
  destruct (Hl x) as [-> ->]; [by left |].
  destruct (findCommonAncestor s x a) as [b|] eqn:Eb; [| done].
  assert (Hb : materialized s b).
  { apply (Hclosed x a); [apply Hmat; by left | done | done]. }
  unfold materialized in Hb. destruct (material (s b)) eqn:Em; [| done].
  apply IH; try done.
  - intros y Hy. apply Hl. by right.
  - intros y Hy. apply Hmat. by right.
  - unfold materialized. by rewrite Em.
Qed.

(** X14: on a set of nodes of this layer that all have a material, when the
    common ancestor of two nodes that have a material has one too, preUpdate
    returns the ancestor resolved by folding the sources through
    findCommonAncestor, alone, and level0Nodes when the fold finds none (or
    the set is empty). *)
Theorem preUpdate_resolves this s context (nodes : list NodeId) :
  (forall x, x ∈ nodes -> ofLayer this (s x) = true /\ isCamera (s x) = false) ->
  (forall x, x ∈ nodes -> materialized s x) ->
  (forall a b c, materialized s a -> materialized s b ->
     findCommonAncestor s a b = Some c -> materialized s c) ->
  (preUpdate this s context (Some <$> nodes)).2
  = match specResolveAncestor s nodes with
    | Some a => [a]
    | None => level0Nodes this
    end.
Proof.
  intros Hl Hmat Hclosed. unfold preUpdate.
  assert (Hnone : bool_decide (None ∈ Some <$> nodes) = false).
  { apply bool_decide_eq_false_2. intros H.
    apply list_elem_of_fmap in H as (x & Hx & _). done. }
  rewrite Hnone. destruct nodes as [|x l]; [done |]. cbn.
  destruct (Hl x) as [-> ->]; [by left |].
  assert (Hx : materialized s x) by (apply Hmat; by left).
  unfold materialized in Hx. destruct (material (s x)) eqn:Em; [| done].
  assert (Hom : omap (fun x => x) (Some <$> l) = l).
  { clear. induction l as [|y l IH]; [done |]. cbn. by rewrite IH. }
  rewrite Hom. apply sourcesLoop_resolves; try done.
  - intros y Hy. apply Hl. by right.
  - intros y Hy. apply Hmat. by right.
  - unfold materialized. by rewrite Em.
Qed.

(** ** A subdivision, from the request to its settlement *)

Ltac exec :=
  unfold update, subdivideNode, onRejected, callCulling, callSubdivision,
    callRemoveChildren, callRemoveChildrenAndCleanup, execute,
    bind, read, assign, call, getStore, ret, lift, throw;
  cbn [fst snd store calls outstanding set_store set_outstanding log].

Lemma subdivideNode_skips this context node w :
  pendingSubdivision (store w node) = true
  \/ hasChildOfLayer this (store w) node = true ->
  subdivideNode this context node w = (w, Normal tt).
Proof.
  intros H. exec. destruct H as [-> | ->]; [done | by rewrite andb_false_r].
Qed.

Lemma subdivideNode_issues this context node w :
  pendingSubdivision (store w node) = false ->
  hasChildOfLayer this (store w) node = false ->
  subdivideNode this context node w
  = (let command :=
       {| c_view := view context; requester := node; c_layer := this;
          priority := 10000; redraw := false;
          extentsSource := extent_subdivision (extent (store w node)) |} in
     {| store := upd node (set_pendingSubdivision true (store w node)) (store w);
        outstanding := outstanding w ++ [command];
        calls := calls w ++ [CallExecute command] |},
     Normal tt).
Proof. intros Hp Hc. exec. by rewrite Hp, Hc. Qed.


Lemma set_pending_back n :
  pendingSubdivision n = false ->
  set_pendingSubdivision false (set_pendingSubdivision true n) = n.
Proof. destruct n. cbn. by intros ->. Qed.

(** X16: a request that is rejected leaves no trace in the scene: for a node
    that is not pending and has no child of the layer, subdivideNode submits
    one command, and once that command is rejected, cancelled or not, every
    object is exactly as it was before the request and the outstanding
    commands are those there were. *)
Theorem subdivide_then_reject this context node err w :
  pendingSubdivision (store w node) = false ->
  hasChildOfLayer this (store w) node = false ->
  exists command,
    outstanding (subdivideNode this context node w).1
      = outstanding w ++ [command]
    /\ requester command = node
    /\ (forall m,
          store (onRejected node err
                   (set_outstanding (outstanding w)
                      (subdivideNode this context node w).1)).1 m
          = store w m)
    /\ outstanding (onRejected node err
                      (set_outstanding (outstanding w)
                         (subdivideNode this context node w).1)).1
       = outstanding w.
Proof.
  intros Hp Hc. rewrite subdivideNode_issues by done.
  cbn [fst snd outstanding]. eexists. split; [done |]. split; [done |].
  exec. destruct err; cbn; (split; [| done]); intros m;
    (destruct (decide (m = node)) as [-> | Hm];
     [rewrite !upd_same; by apply set_pending_back | by rewrite !upd_other]).
Qed.

Lemma upd_frame {B} (g : @TileMesh Extent -> B) a
    (f : @TileMesh Extent -> @TileMesh Extent) s m :
  (forall n, g (f n) = g n) -> g (upd a (f (s a)) s m) = g (s m).
Proof.
  intros H. destruct (decide (m = a)) as [-> | Hm];
    [by rewrite upd_same | by rewrite upd_other].
Qed.

Lemma add_facts node child w :
  (add node child w).2 = Normal tt
  /\ outstanding (add node child w).1 = outstanding w
  /\ calls (add node child w).1 = calls w
  /\ (forall m,
        pendingSubdivision (store (add node child w).1 m)
          = pendingSubdivision (store w m)
        /\ layer (store (add node child w).1 m) = layer (store w m))
  /\ (child <> node ->
      parent (store (add node child w).1 child) = Some node
      /\ child ∈ children (store (add node child w).1 node))
  /\ (forall x, x <> child ->
        parent (store (add node child w).1 x) = parent (store w x))
  /\ (forall x, x ∈ children (store w node) ->
        x ∈ children (store (add node child w).1 node))
  /\ (child = node -> (add node child w).1 = w).
Proof.
  unfold add. destruct (decide (child = node)) as [-> | Hne].
  { cbn. repeat split; done. }
  unfold bind, read, assign, ret. cbn.
  destruct (parent (store w child)) as [p|]; cbn;
    (split; [done |]); (split; [done |]); (split; [done |]).
  - split; [| split; [| split; [| split; [| done]]]].
    + intros m. split.
      * rewrite (upd_frame pendingSubdivision) by done.
        rewrite (upd_frame pendingSubdivision) by done.
        by rewrite (upd_frame pendingSubdivision).
      * rewrite (upd_frame layer) by done.
        rewrite (upd_frame layer) by done.
        by rewrite (upd_frame layer).
    + intros _. rewrite upd_same. cbn. split.
      * rewrite upd_other by done. by rewrite upd_same.
      * apply elem_of_app. right. by left.
    + intros x Hx. rewrite (upd_frame parent) by done.
      rewrite upd_other by done. by rewrite (upd_frame parent).
    + intros x Hx. rewrite upd_same. cbn. rewrite !(upd_other child node) by done.
      destruct (decide (x = child)) as [-> | Hxc];
        [apply elem_of_app; right; by left |].
      apply elem_of_app. left.
      destruct (decide (node = p)) as [<- | Hp]; [| by rewrite upd_other].
      rewrite upd_same. cbn.
      apply list_elem_of_In, filter_In. split; [by apply list_elem_of_In |].
      by apply negb_true_iff, Nat.eqb_neq.
  - split; [| split; [| split; [| split; [| done]]]].
    + intros m. split.
      * rewrite (upd_frame pendingSubdivision) by done.
        by rewrite (upd_frame pendingSubdivision).
      * rewrite (upd_frame layer) by done.
        by rewrite (upd_frame layer).
    + intros _. rewrite upd_same. cbn. split.
      * rewrite upd_other by done. by rewrite upd_same.
      * apply elem_of_app. right. by left.
    + intros x Hx. rewrite (upd_frame parent) by done.
      by rewrite upd_other.
    + intros x Hx. rewrite upd_same. cbn. rewrite !(upd_other child node) by done.
      apply elem_of_app. by left.
Qed.

(** The loop that attaches the nodes a promise has yielded. *)
Lemma attach_loop node (l : list NodeId) w :
  (forEach l (fun c => bind (add node c)
                         (fun _ => call (CallUpdateMatrixWorld c))) w).2
    = Normal tt
  /\ outstanding (forEach l (fun c => bind (add node c)
                    (fun _ => call (CallUpdateMatrixWorld c))) w).1
     = outstanding w
  /\ calls (forEach l (fun c => bind (add node c)
              (fun _ => call (CallUpdateMatrixWorld c))) w).1
     = calls w ++ (CallUpdateMatrixWorld <$> l)
  /\ (forall m,
        pendingSubdivision
          (store (forEach l (fun c => bind (add node c)
                    (fun _ => call (CallUpdateMatrixWorld c))) w).1 m)
          = pendingSubdivision (store w m)
        /\ layer (store (forEach l (fun c => bind (add node c)
                    (fun _ => call (CallUpdateMatrixWorld c))) w).1 m)
           = layer (store w m))
  /\ (forall x,
        (x ∈ l /\ x <> node)
        \/ (parent (store w x) = Some node /\ x ∈ children (store w node)) ->
        parent (store (forEach l (fun c => bind (add node c)
                  (fun _ => call (CallUpdateMatrixWorld c))) w).1 x)
          = Some node
        /\ x ∈ children
                 (store (forEach l (fun c => bind (add node c)
                    (fun _ => call (CallUpdateMatrixWorld c))) w).1 node))
  /\ (forall x, x ∈ children (store w node) ->
        x ∈ children
              (store (forEach l (fun c => bind (add node c)
                 (fun _ => call (CallUpdateMatrixWorld c))) w).1 node))
  /\ (forall x, x ∉ l ->
        parent (store (forEach l (fun c => bind (add node c)
                  (fun _ => call (CallUpdateMatrixWorld c))) w).1 x)
          = parent (store w x)).
Proof.
  revert w. induction l as [|c l IH]; intros w.
  { cbn. rewrite app_nil_r. repeat split; try done.
    - by destruct H as [[H _] | [H _]]; [apply elem_of_nil in H |].
    - by destruct H as [[H _] | [_ H]]; [apply elem_of_nil in H |]. }
  cbn [forEach].
  destruct (add_facts node c w) as (Hr & Ho & Hc & Hpl & Hatt & Hpar & Hch & Hid).
  unfold bind, call in *.
  destruct (add node c w) as [w1 r1]. cbn [fst snd] in *. subst r1.
  destruct (IH (log (CallUpdateMatrixWorld c) w1))
    as (Hr' & Ho' & Hc' & Hpl' & Hatt' & Hch' & Hpar').
  set (loop := forEach l _) in *.
  destruct (loop (log (CallUpdateMatrixWorld c) w1)) as [w2 r2].
  cbn [fst snd store outstanding calls log] in *. subst r2.
  split; [done |]. split; [congruence |]. split.
  { rewrite Hc', Hc, <- app_assoc. done. }
  split.
  { intros m. destruct (Hpl m), (Hpl' m). split; congruence. }
  split.
  { intros x Hx. apply Hatt'.
    destruct Hx as [[Hin Hne] | [Hp Hin]].
    - apply elem_of_cons in Hin as [-> | Hin]; [right; by apply Hatt | by left].
    - right. destruct (decide (x = c)) as [-> | Hxc].
      + destruct (decide (c = node)) as [-> | Hcn];
          [by rewrite (Hid eq_refl) | by apply Hatt].
      + split; [by rewrite Hpar | by apply Hch]. }
  split.
  { intros x Hx. by apply Hch', Hch. }
  intros x Hx. apply not_elem_of_cons in Hx as [Hxc Hxl].
  by rewrite Hpar', Hpar.
Qed.

(** X17: when a command is fulfilled, the callback completes normally and
    leaves the node not pending; every node the scheduler yielded, the node
    itself apart, is then a child of the node with the node as parent; the
    node keeps the children it had; no object changes layer, no other object
    changes its pendingSubdivision, no command is submitted; and the calls
    made are updateMatrixWorld on each yielded node in order, then
    notifyChange(node, false). *)
Theorem onFulfilled_attaches node (newChildren : list NodeId) w :
  (onFulfilled node newChildren w).2 = Normal tt
  /\ pendingSubdivision (store (onFulfilled node newChildren w).1 node) = false
  /\ (forall c, c ∈ newChildren -> c <> node ->
        parent (store (onFulfilled node newChildren w).1 c) = Some node
        /\ c ∈ children (store (onFulfilled node newChildren w).1 node))
  /\ (forall x, x ∈ children (store w node) ->
        x ∈ children (store (onFulfilled node newChildren w).1 node))
  /\ (forall m,
        layer (store (onFulfilled node newChildren w).1 m) = layer (store w m)
        /\ (m <> node ->
            pendingSubdivision (store (onFulfilled node newChildren w).1 m)
              = pendingSubdivision (store w m)))
  /\ outstanding (onFulfilled node newChildren w).1 = outstanding w
  /\ newCalls w (onFulfilled node newChildren w).1
     = (CallUpdateMatrixWorld <$> newChildren) ++ [CallNotifyChange node false].
Proof.
  unfold onFulfilled.
  destruct (attach_loop node newChildren w)
    as (Hr & Ho & Hc & Hpl & Hatt & Hch & _).
  unfold bind, assign, call in *.
  set (loop := forEach newChildren _) in *.
  destruct (loop w) as [w1 r1]. cbn [fst snd] in *. subst r1. cbn.
  rewrite upd_same. cbn. split; [done |]. split; [done |]. split.
  { intros c Hc1 Hc2. rewrite upd_other by done.
    destruct (Hatt c) as [Hp Hin]; [by left |]. done. }
  split; [done |]. split.
  { intros m. destruct (Hpl m) as [Hp Hl].
    destruct (decide (m = node)) as [-> | Hm];
      [by rewrite upd_same | by rewrite upd_other]. }
  split; [done |]. unfold newCalls. cbn.
  by rewrite Hc, <- app_assoc, drop_app_length.
Qed.

Lemma onFulfilled_frame node (newChildren : list NodeId) w :
  pendingSubdivision (store (onFulfilled node newChildren w).1 node) = false
  /\ (forall m, m <> node ->
        pendingSubdivision (store (onFulfilled node newChildren w).1 m)
          = pendingSubdivision (store w m))
  /\ (forall m,
        layer (store (onFulfilled node newChildren w).1 m) = layer (store w m))
  /\ (forall c, c ∈ newChildren -> c <> node ->
        c ∈ children (store (onFulfilled node newChildren w).1 node))
  /\ children (store (onFulfilled node [] w).1 node)
     = children (store w node)
  /\ outstanding (onFulfilled node newChildren w).1 = outstanding w.
Proof.
  assert (Hnil : children (store (onFulfilled node [] w).1 node)
                 = children (store w node)).
  { unfold onFulfilled, bind, assign, call. cbn. by rewrite upd_same. }
  revert Hnil. generalize (children (store (onFulfilled node [] w).1 node)).
  intros l0 Hnil. unfold onFulfilled.
  destruct (attach_loop node newChildren w)
    as (Hr & Ho & Hc & Hpl & Hatt & Hch & _).
  unfold bind, assign, call in *.
  set (loop := forEach newChildren _) in *.
  destruct (loop w) as [w1 r1]. cbn [fst snd] in *. subst r1. cbn.
  rewrite !upd_same. cbn. split; [done |]. split.
  { intros m Hm. rewrite upd_other by done. apply Hpl. }
  split.
  { intros m. rewrite (upd_frame layer) by done. apply Hpl. }
  split; [| done].
  intros c Hin Hne. by apply Hatt; left.
Qed.

(** X18: once a command has been fulfilled with at least one node of this
    layer, the node itself apart, asking again for the subdivision of the
    node changes nothing; when the scheduler yields no node at all, the node
    is left as it was before the request, and the next subdivideNode submits
    a new command. *)
Theorem subdivideNode_after_fulfilment this context node
    (newChildren : list NodeId) w :
  ((exists c, c ∈ newChildren /\ c <> node /\ ofLayer this (store w c) = true) ->
   subdivideNode this context node (onFulfilled node newChildren w).1
   = ((onFulfilled node newChildren w).1, Normal tt))
  /\ (hasChildOfLayer this (store w) node = false ->
      length (outstanding
                (subdivideNode this context node
                   (onFulfilled node [] w).1).1)
      = S (length (outstanding w))).
Proof.
  destruct (onFulfilled_frame node newChildren w)
    as (Hp & Hpo & Hl & Hin & _ & Ho).
  split.
  - intros (c & Hc & Hne & Hof). apply subdivideNode_skips. right.
    unfold hasChildOfLayer. apply existsb_elem_of. exists c.
    split; [by apply Hin |]. unfold ofLayer in *. by rewrite Hl.
  - intros Hno.
    destruct (onFulfilled_frame node [] w) as (Hp' & _ & Hl' & _ & Hch & Ho').
    rewrite subdivideNode_issues; [| done |].
    + cbn [fst outstanding]. rewrite length_app, Ho'. cbn. lia.
    + apply (hasChildOfLayer_mono _ (store w)); [done | | done].
      by rewrite Hch.
Qed.

(** ** pendingSubdivision and the outstanding commands *)

Lemma requestInv_transfer w w' :
  requestInv w ->
  outstanding w' = outstanding w ->
  (forall n : NodeId, pendingSubdivision (store w' n)
                      = pendingSubdivision (store w n)) ->
  requestInv w'.
Proof.
  intros [Hnd Hw] Ho Hp. split; rewrite Ho; [done |].
  intros n. by rewrite Hp.
Qed.

Lemma requestInv_call (c : @Call Extent) : preserves requestInv (call c).
Proof. intros w Hw. by apply (requestInv_transfer w). Qed.

Lemma requestInv_assign m (f : @TileMesh Extent -> @TileMesh Extent) :
  (forall n, pendingSubdivision (f n) = pendingSubdivision n) ->
  preserves requestInv (assign m f).
Proof.
  intros Hf w Hw. apply (requestInv_transfer w); [done | done |]. cbn.
  intros n. by rewrite (upd_frame pendingSubdivision).
Qed.

Lemma requestInv_removal
    (f : @Store Extent -> @Store Extent * option (list NodeId))
    (c : @Call Extent) :
  (forall s m, pendingSubdivision ((f s).1 m) = pendingSubdivision (s m)) ->
  preserves requestInv
    (fun w => (set_store (f (store w)).1 (log c w), Normal (f (store w)).2)).
Proof.
  intros Hf w Hw. apply (requestInv_transfer w); [done | done |]. cbn.
  intros n. apply Hf.
Qed.

Lemma requestInv_subdivideNode this context node :
  preserves requestInv (subdivideNode this context node).
Proof.
  intros w [Hnd Hw].
  destruct (pendingSubdivision (store w node)) eqn:Hp.
  { by rewrite subdivideNode_skips by auto. }
  destruct (hasChildOfLayer this (store w) node) eqn:Hc.
  { by rewrite subdivideNode_skips by auto. }
  rewrite subdivideNode_issues by done. cbn [fst]. split; cbn.
  - rewrite fmap_app. apply NoDup_app. split; [done |]. split.
    + intros x Hx Hnode. apply list_elem_of_singleton in Hnode.
      cbn in Hnode. subst x.
      apply list_elem_of_fmap in Hx as (c & Heq & Hin).
      assert (pendingSubdivision (store w node) = true); [| congruence].
      apply Hw. by exists c.
    + apply NoDup_singleton.
  - intros n. destruct (decide (n = node)) as [-> | Hne].
    + rewrite upd_same. cbn. split; [| done]. intros _.
      eexists. split; [apply elem_of_app; right; by left | done].
    + rewrite upd_other by done. rewrite Hw. split.
      * intros (c & Hin & Hr). exists c.
        split; [apply elem_of_app; by left | done].
      * intros (c & Hin & Hr). apply elem_of_app in Hin as [Hin | Hin];
          [by exists c |].
        apply list_elem_of_singleton in Hin. subst c. done.
Qed.

Ltac keeps :=
  repeat first
    [ apply preserves_read | apply preserves_getStore | apply preserves_ret
    | apply preserves_throw | apply preserves_pure | apply requestInv_call
    | apply requestInv_subdivideNode
    | apply requestInv_assign; done
    | apply preserves_bind; [| intros ?]
    | match goal with
      | |- preserves _ (if ?b then _ else _) => destruct b
      | |- preserves _ (match ?x with _ => _ end) => destruct x
      end ].

Lemma requestInv_update this context node :
  removalKeepsFlags -> preserves requestInv (update this context node).
Proof.
  intros Hrem.
  assert (H1 : preserves requestInv (callRemoveChildren this node)).
  { apply (requestInv_removal _ (CallRemoveChildren node)).
    intros s m. apply (Hrem this node s m). }
  assert (H2 : preserves requestInv (callRemoveChildrenAndCleanup this node)).
  { apply (requestInv_removal _ (CallRemoveChildrenAndCleanup node)).
    intros s m. apply (Hrem this node s m). }
  unfold update, callCulling, callSubdivision.
  keeps; try done.
Qed.

Lemma requestInv_settled node w w' c (before after : list Command) :
  requestInv w ->
  outstanding w = before ++ c :: after ->
  requester c = node ->
  pendingSubdivision (store w' node) = false ->
  (forall m, m <> node ->
     pendingSubdivision (store w' m) = pendingSubdivision (store w m)) ->
  outstanding w' = before ++ after ->
  requestInv w'.
Proof.
  intros [Hnd Hw] Hout Hreq Hp Hpo Ho. rewrite Hout in Hnd.
  rewrite fmap_app, fmap_cons in Hnd.
  apply NoDup_app in Hnd as (Hb & Hba & Hca).
  apply NoDup_cons in Hca as [Hc Ha].
  assert (Hother : forall c', c' ∈ before ++ after -> requester c' <> node).
  { intros c' Hc' Heq. subst node. apply elem_of_app in Hc' as [Hc' | Hc'].
    - apply (Hba (requester c')); [by apply list_elem_of_fmap_2 |].
      rewrite Heq. by left.
    - apply Hc. rewrite <- Heq. by apply list_elem_of_fmap_2. }
  split; rewrite Ho.
  - rewrite fmap_app. apply NoDup_app. split; [done |]. split; [| done].
    intros x Hx Hx'. apply (Hba x Hx). by right.
  - intros n. destruct (decide (n = node)) as [-> | Hne].
    + rewrite Hp. split; [done |]. intros (c' & Hc' & Hr).
      by destruct (Hother c' Hc').
    + rewrite Hpo by done. rewrite Hw, Hout. split.
      * intros (c' & Hc' & Hr). exists c'. split; [| done].
        apply elem_of_app in Hc' as [Hc' | Hc']; [apply elem_of_app; by left |].
        apply elem_of_cons in Hc' as [-> | Hc']; [congruence |].
        apply elem_of_app. by right.
      * intros (c' & Hc' & Hr). exists c'. split; [| done].
        apply elem_of_app in Hc' as [Hc' | Hc'];
          apply elem_of_app; [by left | right; by right].
Qed.

Lemma step_requestInv w w' :
  removalKeepsFlags -> step w w' -> requestInv w -> requestInv w'.
Proof.
  intros Hrem Hstep Hw. destruct Hstep as [this context node w | this context node w
    | c newChildren before after w Hout | c err before after w Hout].
  - by apply requestInv_subdivideNode.
  - by apply requestInv_update.
  - destruct (onFulfilled_frame (requester c) newChildren
                (set_outstanding (before ++ after) w))
      as (Hp & Hpo & _ & _ & _ & Ho).
    by apply (requestInv_settled (requester c) w _ c before after).
  - apply (requestInv_settled (requester c) w _ c before after); try done.
    + unfold onRejected, bind, assign. cbn.
      destruct (negb (isCancelled err)); cbn; by rewrite upd_same.
    + intros m Hm. unfold onRejected, bind, assign. cbn.
      destruct (negb (isCancelled err)); cbn; by rewrite upd_other.
    + unfold onRejected, bind, assign. cbn.
      by destruct (negb (isCancelled err)).
Qed.

(** X19: in every world reached from one where no node is pending and no
    command is outstanding, by calls of subdivideNode and update and by
    settlements of commands, pendingSubdivision of a node is true exactly
    while a command of that node is outstanding, and a node never has two
    outstanding commands; all this asks of ObjectRemovalHelper is that it
    does not write pendingSubdivision. *)
Theorem pending_iff_outstanding w0 w node :
  removalKeepsFlags ->
  outstanding w0 = [] ->
  (forall n : NodeId, pendingSubdivision (store w0 n) = false) ->
  rtc step w0 w ->
  (pendingSubdivision (store w node) = true <-> commandsOf node w <> [])
  /\ (length (commandsOf node w) <= 1)%nat.
Proof.
  intros Hrem H0 Hflags Hrtc.
  assert (Hinv : requestInv w).
  { assert (Hinv0 : requestInv w0).
    { split; rewrite H0; [apply NoDup_nil_2 |]. intros n. rewrite Hflags.
      split; [done |]. intros (c & Hc & _). by apply elem_of_nil in Hc. }
    clear H0 Hflags. induction Hrtc as [|w1 w2 w3 Hstep _ IH]; [done |].
    apply IH. by apply (step_requestInv w1). }
  destruct Hinv as [Hnd Hw].
  assert (Hcmd : commandsOf node w <> []
                 <-> exists c, c ∈ outstanding w /\ requester c = node).
  { unfold commandsOf. split.
    - destruct (List.filter _ (outstanding w)) as [|c l] eqn:Hf; [done |].
      intros _. assert (Hin : In c (List.filter
        (fun c => Nat.eqb (requester c) node) (outstanding w)))
        by (rewrite Hf; by left).
      apply filter_In in Hin as [Hin Heq]. exists c.
      split; [by apply list_elem_of_In | by apply Nat.eqb_eq].
    - intros (c & Hc & Hr) Hnil.
      assert (Hin : In c (List.filter (fun c => Nat.eqb (requester c) node)
                            (outstanding w))).
      { apply filter_In. split; [by apply list_elem_of_In |].
        by apply Nat.eqb_eq. }
      by rewrite Hnil in Hin. }
  split; [by rewrite Hcmd |].
  clear Hw Hcmd. unfold commandsOf.
  induction (outstanding w) as [|c l IH]; [simpl; lia |].
  rewrite fmap_cons in Hnd. apply NoDup_cons in Hnd as [Hc Hl].
  simpl. destruct (Nat.eqb (requester c) node) eqn:Heq; [| by apply IH].
  apply Nat.eqb_eq in Heq. simpl.
  replace (List.filter (fun c => Nat.eqb (requester c) node) l) with
    (@nil (@Command Extent)); [simpl; lia |].
  symmetry. apply filter_all_false. intros c' Hc'.
  apply Nat.eqb_neq. intros Heq'. apply Hc. rewrite Heq, <- Heq'.
  by apply list_elem_of_fmap_2.
Qed.

(** ** The roots of the layer *)

(** X20: when the roots have been converted, the callback of the
    constructor stores them, in order, as level0Nodes, so that an
    unconditional preUpdate returns exactly them; every root, the object of
    the layer itself apart, is then a child of that object with that object
    as parent; no pendingSubdivision and no layer is written, no command is
    submitted, and updateMatrixWorld is called on each root in order. *)
Theorem onRootsConverted_attaches this s context (object3d : NodeId)
    (level0s : list NodeId) w :
  exists this',
    (onRootsConverted this object3d level0s w).2 = Normal this'
    /\ level0Nodes this' = level0s
    /\ base this' = base this
    /\ (preUpdate this' s context []).2 = level0s
    /\ (forall r, r ∈ level0s -> r <> object3d ->
          parent (store (onRootsConverted this object3d level0s w).1 r)
            = Some object3d
          /\ r ∈ children
                   (store (onRootsConverted this object3d level0s w).1
                      object3d))
    /\ (forall m,
          pendingSubdivision
            (store (onRootsConverted this object3d level0s w).1 m)
            = pendingSubdivision (store w m)
          /\ layer (store (onRootsConverted this object3d level0s w).1 m)
             = layer (store w m))
    /\ outstanding (onRootsConverted this object3d level0s w).1
       = outstanding w
    /\ newCalls w (onRootsConverted this object3d level0s w).1
       = CallUpdateMatrixWorld <$> level0s.
Proof.
  unfold onRootsConverted.
  destruct (attach_loop object3d level0s w)
    as (Hr & Ho & Hc & Hpl & Hatt & Hch & _).
  unfold bind, ret, call in *.
  set (loop := forEach level0s _) in *.
  destruct (loop w) as [w1 r1]. cbn [fst snd] in *. subst r1.
  eexists. split; [done |]. cbn. repeat split; try done;
    try (by apply Hatt; left); try apply Hpl.
  unfold newCalls. by rewrite Hc, drop_app_length.
Qed.

(** ** update, further *)

Ltac seen_calls :=
  unfold newCalls;
  cbn [fst snd store calls outstanding set_store set_outstanding log];
  rewrite <- ?app_assoc, ?drop_app_length, ?drop_all; cbn [app].

Ltac no_call H :=
  repeat (apply elem_of_cons in H as [H | H]; [discriminate H |]);
  by apply elem_of_nil in H.

(** X21: on a node that the culling oracle rejects (its parent not being
    subdivided), update consults neither the readiness gate nor the
    subdivision criterion and does not reach subdivideNode; it hides the
    node (visible and displayed false, the rest of the scene untouched),
    hands it to ObjectRemovalHelper.removeChildren and returns what the
    helper returns; it does so even when the node has no material. *)
Theorem update_culled this context node p w :
  parent (store w node) = Some p ->
  pendingSubdivision (store w p) = false ->
  culling this (store w) node (camera context) = true ->
  exists s1,
    visible (s1 node) = false /\ displayed (s1 node) = false
    /\ children (s1 node) = children (store w node)
    /\ pendingSubdivision (s1 node) = pendingSubdivision (store w node)
    /\ (forall m, m <> node -> s1 m = store w m)
    /\ store (update this context node w).1 = (removeChildren this node s1).1
    /\ (update this context node w).2 = Normal (removeChildren this node s1).2
    /\ outstanding (update this context node w).1 = outstanding w
    /\ newCalls w (update this context node w).1
       = [CallCulling node; CallRemoveChildren node].
Proof.
  intros Hp Hpp Hc. exec. rewrite Hp, Hpp. cbn. rewrite Hc. cbn.
  rewrite !upd_same. cbn.
  eexists. split; [| split; [| split; [| split; [| split; [| split;
    [reflexivity |]]]]]]; cbn; rewrite ?upd_same; try done.
  - intros m Hm. by rewrite !upd_other.
  - split; [done |]. split; [done |]. by seen_calls.
Qed.

Lemma hasEnough_throws context n e :
  hasEnoughTexturesToSubdivide context n = Throw e ->
  e = TypeError /\ material n = None.
Proof.
  unfold hasEnoughTexturesToSubdivide. destruct (material n) as [m|] eqn:Hm.
  - rewrite (elevationLoop_material_some n m), (colorLoop_material_some n m)
      by done.
    by destruct (negb _).
  - rewrite elevationLoop_material_none, colorLoop_material_none by done.
    destruct (existsb _ (elevationLayers context));
      [intros [= <-]; done |].
    destruct (existsb _ (colorLayers context)); [intros [= <-]; done | done].
Qed.

(** X22: update throws nothing but a TypeError, and only on a node that has
    no material: on a node with a material it always completes normally. *)
Theorem update_throws this context node w e :
  (update this context node w).2 = Throw e ->
  e = TypeError /\ material (store w node) = None.
Proof.
  exec.
  destruct (parent (store w node)) as [p|] eqn:Hp; [| done].
  destruct (pendingSubdivision (store w p)) eqn:Hpp; [done |].
  cbn. rewrite !upd_same. cbn.
  destruct (culling this (store w) node (camera context)) eqn:Hc; cbn;
    rewrite ?upd_same; cbn; [done |].
  rewrite hasEnough_set_visible.
  assert (Htail : forall (b : bool) v (k1 k2 : @M Extent (option (list NodeId))) w1,
    (forall w2, exists r, (k1 w2).2 = Normal r) ->
    (forall w2, exists r, (k2 w2).2 = Normal r) ->
    (match material_show v <$> material (store w node) with
     | Some m => if m_visible m then k1 else k2
     | None => fun w0 => (w0, Throw TypeError)
     end w1).2 = Throw e ->
    e = TypeError /\ material (store w node) = None).
  { intros b v k1 k2 w1 H1 H2.
    destruct (material (store w node)); cbn; [| by intros [= <-]].
    destruct v; intros H; [destruct (H1 w1) as [r Hr] | destruct (H2 w1) as [r Hr]];
      congruence. }
  destruct (pendingSubdivision (store w node)) eqn:Hpend; cbn.
  - rewrite !upd_same. cbn. rewrite Hpend. cbn. rewrite !upd_same. cbn.
    rewrite Hpend. apply (Htail true).
    + intros w2. destruct (fogDistance (view context)); cbn; eauto.
    + intros w2. cbn. eauto.
  - destruct (hasEnoughTexturesToSubdivide context (store w node))
      as [[|]|e'] eqn:Hgate; cbn.
    + destruct (subdivision context this _ node) eqn:Hsub; cbn;
        rewrite ?upd_same; cbn; rewrite ?Hpend; cbn.
      * rewrite (hasChildOfLayer_upd this node node) by done.
        destruct (hasChildOfLayer this (store w) node) eqn:Hch; cbn;
          rewrite ?upd_same; cbn; rewrite ?Hpend; cbn;
          apply (Htail true); intros w2;
          try destruct (fogDistance (view context)); cbn; eauto.
      * apply (Htail true); intros w2;
          try destruct (fogDistance (view context)); cbn; eauto.
    + rewrite !upd_same. cbn.
      apply (Htail true); intros w2;
        try destruct (fogDistance (view context)); cbn; eauto.
    + intros [= <-]. by apply (hasEnough_throws context).
Qed.

(** X23: update submits at most one command, and only for the node it is
    given: either the outstanding commands are unchanged, or one command is
    appended, requested by the node for this layer with priority 10000,
    redraw false, the view of the context and the quartering of the node's
    extent; that happens only for a node that has a parent, was not pending,
    had no child of this layer and passed the readiness gate, and the node
    comes out pending and displayed. *)
Theorem update_submits this context node w :
  outstanding (update this context node w).1 = outstanding w
  \/ exists command,
       outstanding (update this context node w).1
         = outstanding w ++ [command]
       /\ command
          = {| c_view := view context; requester := node; c_layer := this;
               priority := 10000; redraw := false;
               extentsSource := extent_subdivision (extent (store w node)) |}
       /\ parent (store w node) <> None
       /\ pendingSubdivision (store w node) = false
       /\ hasChildOfLayer this (store w) node = false
       /\ hasEnoughTexturesToSubdivide context (store w node) = Normal true
       /\ pendingSubdivision (store (update this context node w).1 node) = true
       /\ displayed (store (update this context node w).1 node) = true.
Proof.
  exec.
  destruct (parent (store w node)) as [p|] eqn:Hp; [| by left].
  destruct (pendingSubdivision (store w p)) eqn:Hpp; [by left |].
  cbn. rewrite !upd_same. cbn.
  destruct (culling this (store w) node (camera context)) eqn:Hc; cbn;
    rewrite ?upd_same; cbn; [by left |].
  rewrite hasEnough_set_visible.
  destruct (pendingSubdivision (store w node)) eqn:Hpend; cbn.
  - rewrite !upd_same. cbn. rewrite Hpend. cbn. rewrite !upd_same. cbn.
    rewrite Hpend. left.
    destruct (material (store w node)) as [m|]; cbn;
      [destruct (fogDistance (view context)); cbn |]; done.
  - destruct (hasEnoughTexturesToSubdivide context (store w node))
      as [[|]|e'] eqn:Hgate; cbn.
    + destruct (subdivision context this _ node) eqn:Hsub; cbn;
        rewrite ?upd_same; cbn; rewrite ?Hpend; cbn.
      * rewrite (hasChildOfLayer_upd this node node) by done.
        destruct (hasChildOfLayer this (store w) node) eqn:Hch; cbn;
          rewrite ?upd_same; cbn; rewrite ?Hpend; cbn.
        -- left. destruct (material (store w node)) as [m|]; cbn;
             [destruct (fogDistance (view context)); cbn |]; done.
        -- right. eexists.
           destruct (material (store w node)) as [m|]; cbn;
             [destruct (fogDistance (view context)); cbn |];
             rewrite ?upd_same; cbn; repeat split; done.
      * left. destruct (material (store w node)) as [m|]; cbn;
          [destruct (fogDistance (view context)); cbn |]; done.
    + rewrite !upd_same. cbn. left.
      destruct (material (store w node)) as [m|]; cbn;
        [destruct (fogDistance (view context)); cbn |]; done.
    + by left.
Qed.

Ltac footprint_leaf :=
  let Hn := fresh in
  let m := fresh in
  let Hm := fresh in
  intros Hn _;
  first
    [ solve [ rewrite ?upd_same; cbn;
              split; [intros m Hm; by rewrite !upd_other | done] ]
    | solve [ exfalso; apply Hn; seen_calls;
              repeat first [apply list_elem_of_here
                           | apply list_elem_of_further] ] ].

(** X24: apart from what ObjectRemovalHelper does, update writes nothing but
    the node it is given, and on that node neither the parent, nor the
    children, nor the layer: when update has not called the helper, every
    other object of the scene is as it was and the node has the same parent,
    children and layer. *)
Theorem update_footprint this context node w :
  CallRemoveChildren node ∉ newCalls w (update this context node w).1 ->
  CallRemoveChildrenAndCleanup node
    ∉ newCalls w (update this context node w).1 ->
  (forall m, m <> node -> store (update this context node w).1 m = store w m)
  /\ parent (store (update this context node w).1 node)
     = parent (store w node)
  /\ children (store (update this context node w).1 node)
     = children (store w node)
  /\ layer (store (update this context node w).1 node)
     = layer (store w node).
Proof.
  exec.
  destruct (parent (store w node)) as [p|] eqn:Hp.
  2:{ intros _ H. exfalso. apply H. seen_calls. by left. }
  destruct (pendingSubdivision (store w p)) eqn:Hpp.
  { cbn. intros _ _. rewrite !upd_same. cbn.
    split; [| done]. intros m Hm. by rewrite !upd_other. }
  cbn. rewrite !upd_same. cbn.
  destruct (culling this (store w) node (camera context)) eqn:Hc; cbn;
    rewrite ?upd_same; cbn.
  { intros H _. exfalso. apply H. seen_calls. right. by left. }
  rewrite hasEnough_set_visible.
  destruct (pendingSubdivision (store w node)) eqn:Hpend; cbn.
  - rewrite !upd_same. cbn. rewrite Hpend. cbn. rewrite !upd_same. cbn.
    rewrite Hpend.
    destruct (material (store w node)) as [m|]; cbn;
      [destruct (fogDistance (view context)); cbn |]; footprint_leaf.
  - destruct (hasEnoughTexturesToSubdivide context (store w node))
      as [[|]|e'] eqn:Hgate; cbn.
    + destruct (subdivision context this _ node) eqn:Hsub; cbn;
        rewrite ?upd_same; cbn; rewrite ?Hpend; cbn.
      * rewrite (hasChildOfLayer_upd this node node) by done.
        destruct (hasChildOfLayer this (store w) node) eqn:Hch; cbn;
          rewrite ?upd_same; cbn; rewrite ?Hpend; cbn;
          (destruct (material (store w node)) as [m|]; cbn;
           [destruct (fogDistance (view context)); cbn |]; footprint_leaf).
      * destruct (material (store w node)) as [m|]; cbn;
          [destruct (fogDistance (view context)); cbn |]; footprint_leaf.
    + rewrite !upd_same. cbn.
      destruct (material (store w node)) as [m|]; cbn;
        [destruct (fogDistance (view context)); cbn |]; footprint_leaf.
    + footprint_leaf.
Qed.

Lemma filter_ofLayer_upd this node (v : @TileMesh Extent) s (l : list NodeId) :
  layer v = layer (s node) ->
  List.filter (fun c => ofLayer this (upd node v s c)) l
  = List.filter (fun c => ofLayer this (s c)) l.
Proof.
  intros Hl. apply List.filter_ext. intros c. unfold ofLayer.
  destruct (decide (c = node)) as [-> | Hc];
    [by rewrite upd_same, Hl | by rewrite upd_other].
Qed.

Ltac return_leaf :=
  let H := fresh in
  first
    [ solve [ intros H; exfalso; revert H; seen_calls; intros H; no_call H ]
    | solve [ intros _ H; exfalso; by apply H ]
    | solve [ intros _ _; rewrite ?upd_same; cbn;
              repeat (rewrite filter_ofLayer_upd
                        by (rewrite ?upd_same; done));
              done ] ].

(** X25: when update takes the subdividing branch on a node that has a
    material, it returns the children of this layer that the node had on
    entry, in their order, and nothing else: the nodes to visit next are
    never nodes of another layer, and a request that has just been submitted
    adds none. *)
Theorem update_returns_children this context node w :
  CallSubdivideNode node ∈ newCalls w (update this context node w).1 ->
  material (store w node) <> None ->
  (update this context node w).2
  = Normal (Some (List.filter (fun c => ofLayer this (store w c))
                    (children (store w node)))).
Proof.
  exec.
  destruct (parent (store w node)) as [p|] eqn:Hp; [| return_leaf].
  destruct (pendingSubdivision (store w p)) eqn:Hpp; [cbn; return_leaf |].
  cbn. rewrite !upd_same. cbn.
  destruct (culling this (store w) node (camera context)) eqn:Hc; cbn;
    rewrite ?upd_same; cbn; [return_leaf |].
  rewrite hasEnough_set_visible.
  destruct (pendingSubdivision (store w node)) eqn:Hpend; cbn.
  - rewrite !upd_same. cbn. rewrite Hpend. cbn. rewrite !upd_same. cbn.
    rewrite Hpend.
    destruct (material (store w node)) as [m|]; cbn;
      [destruct (fogDistance (view context)); cbn |]; return_leaf.
  - destruct (hasEnoughTexturesToSubdivide context (store w node))
      as [[|]|e'] eqn:Hgate; cbn.
    + destruct (subdivision context this _ node) eqn:Hsub; cbn;
        rewrite ?upd_same; cbn; rewrite ?Hpend; cbn.
      * rewrite (hasChildOfLayer_upd this node node) by done.
        destruct (hasChildOfLayer this (store w) node) eqn:Hch; cbn;
          rewrite ?upd_same; cbn; rewrite ?Hpend; cbn;
          (destruct (material (store w node)) as [m|]; cbn;
           [destruct (fogDistance (view context)); cbn |]; return_leaf).
      * destruct (material (store w node)) as [m|]; cbn;
          [destruct (fogDistance (view context)); cbn |]; return_leaf.
    + rewrite !upd_same. cbn.
      destruct (material (store w node)) as [m|]; cbn;
        [destruct (fogDistance (view context)); cbn |]; return_leaf.
    + return_leaf.
Qed.

End MoreProperties.

(** ** The further properties on the concrete scene *)

(** The roads are attached to, then detached from, the buildings. *)
Lemma attach_detach_roundtrip_witness :
  detach (set_attachedLayers [Demo.labels; Demo.roads] Demo.buildings)
    Demo.roads
  = (Demo.buildings, true).
Proof.
  apply attach_detach_roundtrip; [| reflexivity].
  intros a Ha. apply list_elem_of_singleton in Ha as ->. discriminate.
Defined.

(** The roads are attached while the labels are detached. *)
Lemma attach_detach_commute_witness :
  attach (detach Demo.buildings Demo.labels).1 Demo.roads
  = Some (detach (set_attachedLayers [Demo.labels; Demo.roads] Demo.buildings)
            Demo.labels).1.
Proof.
  apply (attach_detach_commute Demo.buildings _ Demo.roads Demo.labels);
    [discriminate | reflexivity].
Defined.

(** A leaf whose elevation texture is missing. *)
Lemma hasEnoughTextures_characterized_witness :
  exists b, hasEnoughTexturesToSubdivide Demo.contextRelief Demo.leafTile
            = Normal b
  /\ (b = false <->
      (isElevationLayerLoaded Demo.shownMaterial = false
       /\ exists e, e ∈ elevationLayers Demo.contextRelief
            /\ elevationApplies Demo.leafTile e = true
            /\ layerInError Demo.leafTile (l_id e) = false)
      \/ (exists c, c ∈ colorLayers Demo.contextRelief
            /\ colorApplies Demo.leafTile c = true
            /\ isColorLayerLoaded Demo.shownMaterial c = false)).
Proof.
  apply (hasEnoughTextures_characterized Demo.contextRelief Demo.leafTile
           Demo.shownMaterial).
  reflexivity.
Defined.

(** Tile 1 of the chain, which has no material. *)
Lemma hasEnoughTextures_without_material_witness :
  hasEnoughTexturesToSubdivide Demo.contextRelief (Demo.chainTile 1)
  = Throw TypeError.
Proof.
  rewrite (hasEnoughTextures_without_material Demo.contextRelief
             (Demo.chainTile 1)); reflexivity.
Defined.

(** The two elevation layers in both orders. *)
Lemma hasEnoughTextures_order_witness :
  hasEnoughTexturesToSubdivide Demo.contextTwo Demo.leafTile
  = hasEnoughTexturesToSubdivide Demo.contextTwoSwapped Demo.leafTile.
Proof.
  apply hasEnoughTextures_order; [apply perm_swap | reflexivity].
Defined.

(** The tiles of the globe are no sources for the moon. *)
Lemma preUpdate_foreign_sources_witness :
  (preUpdate Demo.moon Demo.chainTile Demo.context0
     [Some 1%nat; Some 2%nat]).2
  = level0Nodes Demo.moon.
Proof.
  apply (proj2 (preUpdate_foreign_sources Demo.moon Demo.chainTile
                  Demo.context0 [Some 1%nat; Some 2%nat])).
  intros o Ho. apply elem_of_cons in Ho as [-> | Ho]; [reflexivity |].
  apply list_elem_of_singleton in Ho as ->. reflexivity.
Defined.

(** An unconditional update, and an update from tile 2. *)
Lemma preUpdate_context_witness :
  (preUpdate Demo.globe Demo.chainTile Demo.contextView []).1
    = Demo.contextView
  /\ view (preUpdate Demo.globe Demo.chainTile Demo.contextView
             [Some 2%nat]).1
     = Demo.reliefView.
Proof.
  destruct (preUpdate_context Demo.globe Demo.chainTile Demo.contextView [])
    as [H1 _].
  destruct (preUpdate_context Demo.globe Demo.chainTile Demo.contextView
              [Some 2%nat]) as [_ H2].
  split; [apply H1; by left |].
  apply H2; [discriminate |].
  intros H. apply list_elem_of_singleton in H. discriminate.
Defined.

(** The zoom bounds 12 and 15 of the two elevation layers. *)
Lemma preUpdate_maxElevationLevel_witness :
  match maxElevationLevel
          (preUpdate Demo.globe Demo.chainTile Demo.contextView
             [Some 2%nat]).1 with
  | Infinity =>
      forall e,
        e ∈ elevationLayers
              (preUpdate Demo.globe Demo.chainTile Demo.contextView
                 [Some 2%nat]).1 ->
        (zoom_max (l_source e) <= -1)%Z
  | Finite m =>
      (-1 < m)%Z
      /\ (forall e,
            e ∈ elevationLayers
                  (preUpdate Demo.globe Demo.chainTile Demo.contextView
                     [Some 2%nat]).1 ->
            (zoom_max (l_source e) <= m)%Z)
      /\ (exists e,
            e ∈ elevationLayers
                  (preUpdate Demo.globe Demo.chainTile Demo.contextView
                     [Some 2%nat]).1
            /\ zoom_max (l_source e) = m)
  end.
Proof.
  apply (preUpdate_maxElevationLevel Demo.globe Demo.chainTile
           Demo.contextView [Some 2%nat]); [discriminate |].
  intros H. apply list_elem_of_singleton in H. discriminate.
Defined.

(** Tiles 2 and 1 of the chain with a material on every tile. *)
Lemma preUpdate_resolves_witness :
  (preUpdate Demo.globe Demo.solidTile Demo.context0
     (Some <$> [2%nat; 1%nat])).2
  = [1%nat].
Proof.
  rewrite (preUpdate_resolves Demo.globe Demo.solidTile Demo.context0
             [2%nat; 1%nat]).
  - reflexivity.
  - intros x Hx. split; reflexivity.
  - intros x _. unfold materialized. simpl. discriminate.
  - intros a b c _ _ _. unfold materialized. simpl. discriminate.
Defined.

(** The request of tile 3 is cancelled. *)
Lemma subdivide_then_reject_witness :
  exists command,
    outstanding (subdivideNode Demo.globe Demo.context0 3%nat Demo.leafWorld).1
      = outstanding Demo.leafWorld ++ [command]
    /\ requester command = 3%nat
    /\ (forall m,
          store (onRejected 3%nat CancelledCommandException
                   (set_outstanding (outstanding Demo.leafWorld)
                      (subdivideNode Demo.globe Demo.context0 3%nat
                         Demo.leafWorld).1)).1 m
          = store Demo.leafWorld m)
    /\ outstanding (onRejected 3%nat CancelledCommandException
                      (set_outstanding (outstanding Demo.leafWorld)
                         (subdivideNode Demo.globe Demo.context0 3%nat
                            Demo.leafWorld).1)).1
       = outstanding Demo.leafWorld.
Proof.
  apply (subdivide_then_reject Demo.globe Demo.context0 3%nat
           CancelledCommandException Demo.leafWorld); reflexivity.
Defined.

(** Tile 3 gets the tiles 4 to 7, or nothing. *)
Lemma subdivideNode_after_fulfilment_witness :
  subdivideNode Demo.globe Demo.context0 3%nat
    (onFulfilled 3%nat [4%nat; 5%nat; 6%nat; 7%nat] Demo.leafWorld).1
  = ((onFulfilled 3%nat [4%nat; 5%nat; 6%nat; 7%nat] Demo.leafWorld).1,
     Normal tt)
  /\ length (outstanding
               (subdivideNode Demo.globe Demo.context0 3%nat
                  (onFulfilled 3%nat [] Demo.leafWorld).1).1)
     = S (length (outstanding Demo.leafWorld)).
Proof.
  destruct (subdivideNode_after_fulfilment Demo.globe Demo.context0 3%nat
              [4%nat; 5%nat; 6%nat; 7%nat] Demo.leafWorld) as [H1 H2].
  split; [apply H1 | apply H2; reflexivity].
  exists 4%nat. split; [by left |]. split; [discriminate | reflexivity].
Defined.

(** A cleanup that unlinks the cleaned node from its layer does not write
    pendingSubdivision, although it is no removal in the sense of
    [removalOnly]. *)
Lemma unlink_removalKeepsFlags : removalKeepsFlags (collab := Demo.unlinkCollab).
Proof.
  intros this node s m. cbn. unfold upd.
  split; by destruct (Nat.eqb_spec m node) as [-> | Hm].
Qed.

Lemma unlink_not_removalOnly : ~ removalOnly (collab := Demo.unlinkCollab).
Proof.
  intros H.
  destruct (H Demo.globe 3%nat) as [_ H2].
  destruct (H2 (fun _ => Demo.leafTile) 3%nat) as (_ & Hl & _).
  discriminate Hl.
Qed.

(** Tile 3 after its first request, followed by an update of tile 0 that
    runs the cleanup and unlinks tile 0 from its layer. *)
Lemma pending_iff_outstanding_witness :
  layer
    (store
       (update (collab := Demo.unlinkCollab) Demo.globe Demo.context0 0%nat
          (subdivideNode (collab := Demo.unlinkCollab)
             Demo.globe Demo.context0 3%nat Demo.orphanWorld).1).1
       0%nat) = None
  /\ (pendingSubdivision
        (store
           (update (collab := Demo.unlinkCollab) Demo.globe Demo.context0 0%nat
              (subdivideNode (collab := Demo.unlinkCollab)
                 Demo.globe Demo.context0 3%nat Demo.orphanWorld).1).1
           3%nat) = true
      <-> commandsOf 3%nat
            (update (collab := Demo.unlinkCollab) Demo.globe Demo.context0 0%nat
               (subdivideNode (collab := Demo.unlinkCollab)
                  Demo.globe Demo.context0 3%nat Demo.orphanWorld).1).1
          <> [])
  /\ (length
        (commandsOf 3%nat
           (update (collab := Demo.unlinkCollab) Demo.globe Demo.context0 0%nat
              (subdivideNode (collab := Demo.unlinkCollab)
                 Demo.globe Demo.context0 3%nat Demo.orphanWorld).1).1)
      <= 1)%nat.
Proof.
  split; [reflexivity |].
  apply (pending_iff_outstanding (collab := Demo.unlinkCollab)
           Demo.orphanWorld);
    [apply unlink_removalKeepsFlags | reflexivity | |].
  { intros n. simpl. destruct (Nat.eqb n 0); reflexivity. }
  eapply rtc_l; [apply (step_subdivideNode (collab := Demo.unlinkCollab)) |].
  apply rtc_once, (step_update (collab := Demo.unlinkCollab)).
Defined.

(** Tile 1 of the chain under the culling placeholder. *)
Lemma update_culled_witness :
  newCalls Demo.solidWorld
    (update (collab := Demo.hiddenCollab) Demo.globe Demo.context0 1%nat
       Demo.solidWorld).1
  = [CallCulling 1%nat; CallRemoveChildren 1%nat].
Proof.
  destruct (update_culled (collab := Demo.hiddenCollab) Demo.globe
              Demo.context0 1%nat 0%nat Demo.solidWorld
              eq_refl eq_refl eq_refl) as (s1 & H).
  apply H.
Defined.

(** Tile 1 of the chain has no material. *)
Lemma update_throws_witness :
  material (store Demo.chainWorld 1%nat) = None.
Proof.
  apply (update_throws Demo.globe Demo.context0 1%nat Demo.chainWorld
           TypeError).
  reflexivity.
Defined.

(** Tile 3 of the leaves gets its command: no removal. *)
Lemma update_footprint_witness :
  children (store (update Demo.globe Demo.context0 3%nat Demo.leafWorld).1
              3%nat)
  = children (store Demo.leafWorld 3%nat).
Proof.
  apply (update_footprint Demo.globe Demo.context0 3%nat Demo.leafWorld);
    vm_compute; intros H;
    repeat (apply elem_of_cons in H as [H | H]; [discriminate H |]);
    by apply elem_of_nil in H.
Defined.

(** Tile 1 of the chain returns its child. *)
Lemma update_returns_children_witness :
  (update Demo.globe Demo.context0 1%nat Demo.solidWorld).2
  = Normal (Some [2%nat]).
Proof.
  rewrite (update_returns_children Demo.globe Demo.context0 1%nat
             Demo.solidWorld); [reflexivity | | discriminate].
  vm_compute. do 2 apply list_elem_of_further. apply list_elem_of_here.
Defined.
